(** * The mobile-menu component of ember-mobile-menu

    A shallow embedding of [addon/components/mobile-menu.js]: the derived
    properties, the two animation tasks and the four pan handlers, followed
    by the properties the specification states about them.

    Numbers.  The component computes with JavaScript numbers.  They are
    modelled as exact rationals ([Q]): rounding, signed zeros and non-finite
    pan samples are outside the model.  The single division whose divisor is
    not a literal ([relativePosition]) keeps JavaScript's results for a zero
    divisor ([NaN], the infinities).  [===] on numbers is [Qeq_bool].

    Where rounding decides, at the last frame of the [open] animation, the
    task is given a second time in binary64 ([Module Double]), and the
    properties that depend on it are stated there. *)

From Stdlib Require Import QArith Qminmax Qabs Lqa Lia List Bool String.
From Stdlib Require Import PrimFloat.
Import ListNotations.
Local Open Scope Q_scope.

(** ** Numbers *)

(** [a > b] and [a < b] as the program evaluates them. *)
Definition gtb (a b : Q) : bool := negb (Qle_bool a b).
Definition ltb (a b : Q) : bool := negb (Qle_bool b a).

(** The result of a JavaScript division. *)
Inductive number : Type :=
| Finite (q : Q)
| Infinity
| NegInfinity
| NaN.

Definition divide (a b : Q) : number :=
  if Qeq_bool b 0 then
    if Qeq_bool a 0 then NaN
    else if gtb a 0 then Infinity else NegInfinity
  else Finite (a / b).

(** ** Data *)

(** The pan recognizer's event; only [e.current] is read. *)
Record Current : Type := {
  distanceX : Q;
  velocityX : Q;
  x : Q
}.

Record PanEvent : Type := {
  current : Current
}.

(** The component's arguments, and what it asks of its surroundings:
    the fastboot service, [getWindowWidth()] of ember-mobile-core and
    [normalizeCoordinates(e, this.element)] of [../utils], neither of which
    is part of the component's file; they are taken as they come. *)
Record Component : Type := {
  type : string;
  width : Q;
  maxWidth : Q;
  triggerVelocity : Q;
  embed : bool;
  isFastBoot : bool;
  getWindowWidth : Q;
  normalizeCoordinates : PanEvent -> PanEvent
}.

Inductive TaskName : Type := open | close.

(** What the component asks of the outside, most recent first:
    [task.perform()] and the two hooks. *)
Inductive Call : Type :=
| Performed (t : TaskName)
| onOpen
| onClose.

(** The constants a running [open] instance has captured. *)
Record OpenInstance : Type := {
  open_startPos : Q;
  open_diff : Q
}.

(** The constant a running [close] instance has captured. *)
Record CloseInstance : Type := {
  close_startPos : Q
}.

(** The mutable properties, the running instance of each task (at most one:
    both tasks are restartable) and the calls made so far. *)
Record Menu : Type := {
  isDragging : bool;
  position : Q;
  dxCorrection : Q;
  open_running : option OpenInstance;
  close_running : option CloseInstance;
  calls : list Call
}.

Definition init : Menu :=
  {| isDragging := false; position := 0; dxCorrection := 0;
     open_running := None; close_running := None; calls := [] |}.

(** [this.set(...)] *)
Definition set_isDragging (st : Menu) (b : bool) : Menu :=
  {| isDragging := b; position := position st;
     dxCorrection := dxCorrection st; open_running := open_running st;
     close_running := close_running st; calls := calls st |}.

Definition set_position (st : Menu) (p : Q) : Menu :=
  {| isDragging := isDragging st; position := p;
     dxCorrection := dxCorrection st; open_running := open_running st;
     close_running := close_running st; calls := calls st |}.

Definition set_dxCorrection (st : Menu) (d : Q) : Menu :=
  {| isDragging := isDragging st; position := position st;
     dxCorrection := d; open_running := open_running st;
     close_running := close_running st; calls := calls st |}.

Definition set_open_running (st : Menu) (r : option OpenInstance) : Menu :=
  {| isDragging := isDragging st; position := position st;
     dxCorrection := dxCorrection st; open_running := r;
     close_running := close_running st; calls := calls st |}.

Definition set_close_running (st : Menu) (r : option CloseInstance) : Menu :=
  {| isDragging := isDragging st; position := position st;
     dxCorrection := dxCorrection st; open_running := open_running st;
     close_running := r; calls := calls st |}.

Definition call (st : Menu) (c : Call) : Menu :=
  {| isDragging := isDragging st; position := position st;
     dxCorrection := dxCorrection st; open_running := open_running st;
     close_running := close_running st; calls := c :: calls st |}.

(** ** Derived properties *)

Definition isLeft (c : Component) : bool := String.eqb (type c) "left".
Definition isRight (c : Component) : bool := String.eqb (type c) "right".

Definition _width (c : Component) : Q :=
  if isFastBoot c
  then maxWidth c
  else Qmin (width c / 100 * getWindowWidth c) (maxWidth c).

Definition isOpen (c : Component) (st : Menu) : bool :=
  negb (isDragging st) && Qeq_bool (position st) (_width c).

Definition isTransitioning (st : Menu) : bool :=
  match open_running st, close_running st with
  | None, None => false
  | _, _ => true
  end.

Definition relativePosition (c : Component) (st : Menu) : number :=
  divide (Qabs (position st)) (_width c).

(** ** The animation tasks

    Modelled from the spec: [task(...).restartable()] of ember-concurrency and
    [Tween] of ember-mobile-core are not part of the component's file.
    Performing a restartable task cancels its running instance, which then
    produces no further progress and never reaches the code after its
    [yield]; the new instance runs up to its [yield] at once.  A started
    tween calls its callback with progress fractions and, at its last frame,
    with [1], after which it resolves and the task resumes. *)

Definition open_perform (c : Component) (st : Menu) : Menu :=
  let st := call st (Performed open) in
  let startPos := position st in
  let diff := _width c - startPos in
  set_open_running st
    (Some {| open_startPos := startPos; open_diff := diff |}).

(** The tween's callback of the running [open] instance. *)
Definition open_progress (st : Menu) (progress : Q) : Menu :=
  match open_running st with
  | Some r => set_position st (open_startPos r + open_diff r * progress)
  | None => st
  end.

(** The last frame of the running [open] instance and the code after its
    [yield]. *)
Definition open_resolve (st : Menu) : Menu :=
  match open_running st with
  | Some _ =>
      let st := open_progress st 1 in
      let st := call st onOpen in
      set_open_running st None
  | None => st
  end.

Definition close_perform (st : Menu) : Menu :=
  let st := call st (Performed close) in
  let startPos := position st in
  set_close_running st (Some {| close_startPos := startPos |}).

Definition close_progress (st : Menu) (progress : Q) : Menu :=
  match close_running st with
  | Some r => set_position st (close_startPos r * (1 - progress))
  | None => st
  end.

Definition close_resolve (st : Menu) : Menu :=
  match close_running st with
  | Some _ =>
      let st := close_progress st 1 in
      let st := call st onClose in
      set_close_running st None
  | None => st
  end.

(** [actions.open] and [actions.close] *)
Definition actions_open (c : Component) (st : Menu) : Menu :=
  open_perform c st.

Definition actions_close (st : Menu) : Menu :=
  close_perform st.

(** ** Pan handlers for opening the menu *)

Definition panOpen (c : Component) (st : Menu) (e : PanEvent) : Menu :=
  let st := set_isDragging st true in
  let _e := if embed c then normalizeCoordinates c e else e in
  let distanceX := distanceX (current _e) in
  let dx := if isLeft c then distanceX else - distanceX in
  let width := _width c in
  let targetPosition := Qmin (Qmax dx 0) width in
  set_position st targetPosition.

Definition panOpenEnd (c : Component) (st : Menu) (e : PanEvent) : Menu :=
  let st := set_isDragging st false in
  let _e := if embed c then normalizeCoordinates c e else e in
  let distanceX := distanceX (current _e) in
  let velocityX := velocityX (current _e) in
  let triggerVelocity := triggerVelocity c in
  let isLeft := isLeft c in
  let width := _width c in
  let dx := if isLeft then distanceX else - distanceX in
  let vx := if isLeft then velocityX else - velocityX in
  if gtb vx triggerVelocity || gtb dx (width / 2)
  then open_perform c st
  else close_perform st.

(** ** Pan handlers for closing the menu *)

Definition didPan (c : Component) (st : Menu) (e : PanEvent) : Menu :=
  let _e := if embed c then normalizeCoordinates c e else e in
  let distanceX := distanceX (current _e) in
  let x := x (current _e) in
  let isLeft := isLeft c in
  let windowWidth := getWindowWidth c in
  let width := _width c in
  let dx := if isLeft then distanceX else - distanceX in
  let cx := if isLeft then x else windowWidth - x in
  let st :=
    if isOpen c st && negb (isDragging st) then
      if ltb cx width
      then set_dxCorrection (set_isDragging st true) dx
      else st
    else st in
  if isDragging st then
    let targetPosition := dx in
    let targetPosition := targetPosition - dxCorrection st in
    if ltb cx width then
      let targetPosition :=
        if gtb targetPosition 0 then 0
        else if ltb targetPosition (-1 * width) then -1 * width
        else targetPosition in
      set_position st (width + targetPosition)
    else st
  else st.

Definition didPanEnd (c : Component) (st : Menu) (e : PanEvent) : Menu :=
  if isDragging st then
    let st := set_isDragging st false in
    let _e := if embed c then normalizeCoordinates c e else e in
    let distanceX := distanceX (current _e) in
    let velocityX := velocityX (current _e) in
    let triggerVelocity := triggerVelocity c in
    let isLeft := isLeft c in
    let width := _width c in
    let dx := if isLeft then distanceX else - distanceX in
    let vx := if isLeft then velocityX else - velocityX in
    let st :=
      if ltb vx (-1 * triggerVelocity) || gtb (-1 * dx) (width / 2)
      then close_perform st
      else open_perform c st in
    set_dxCorrection st 0
  else st.

(** ** The component as a machine *)

Inductive Event : Type :=
| PanOpen (e : PanEvent)
| PanOpenEnd (e : PanEvent)
| DidPan (e : PanEvent)
| DidPanEnd (e : PanEvent)
| ActionOpen
| ActionClose
| Frame (t : TaskName) (progress : Q)
| Resolve (t : TaskName).

Definition step (c : Component) (st : Menu) (ev : Event) : Menu :=
  match ev with
  | PanOpen e => panOpen c st e
  | PanOpenEnd e => panOpenEnd c st e
  | DidPan e => didPan c st e
  | DidPanEnd e => didPanEnd c st e
  | ActionOpen => actions_open c st
  | ActionClose => actions_close st
  | Frame open p => open_progress st p
  | Frame close p => close_progress st p
  | Resolve open => open_resolve st
  | Resolve close => close_resolve st
  end.

Definition run (c : Component) (st : Menu) (evs : list Event) : Menu :=
  fold_left (step c) evs st.

(** A tween's progress is a fraction. *)
Definition fraction (ev : Event) : bool :=
  match ev with
  | Frame _ p => Qle_bool 0 p && Qle_bool p 1
  | _ => true
  end.

Definition reachable (c : Component) (st : Menu) : Prop :=
  exists evs, forallb fraction evs = true /\ st = run c init evs.

(** ** Vocabulary of the specification *)

(** The event a handler reads: [embed ? normalizeCoordinates(e, el) : e]. *)
Definition normalized (c : Component) (e : PanEvent) : PanEvent :=
  if embed c then normalizeCoordinates c e else e.

(** Sign correction for the anchor: unchanged for a left menu, negated
    otherwise. *)
Definition directionalize (c : Component) (rawDelta : Q) : Q :=
  if isLeft c then rawDelta else - rawDelta.

Definition dx_of (c : Component) (e : PanEvent) : Q :=
  directionalize c (distanceX (current (normalized c e))).

Definition vx_of (c : Component) (e : PanEvent) : Q :=
  directionalize c (velocityX (current (normalized c e))).

(** The pointer coordinate measured from the anchored edge. *)
Definition cx_of (c : Component) (e : PanEvent) : Q :=
  if isLeft c
  then x (current (normalized c e))
  else getWindowWidth c - x (current (normalized c e)).

Definition in_range (c : Component) (p : Q) : Prop :=
  0 <= p <= _width c.

Definition in_unit (r : number) : Prop :=
  match r with
  | Finite q => 0 <= q <= 1
  | _ => False
  end.

(** ** Sample components and events *)

Definition sample (dX vX pX : Q) : PanEvent :=
  {| current := {| distanceX := dX; velocityX := vX; x := pX |} |}.

Definition menu (anchor : string) (widthPercent maxWidthPx viewport : Q)
  : Component :=
  {| type := anchor; width := widthPercent; maxWidth := maxWidthPx;
     triggerVelocity := 3 # 10; embed := false; isFastBoot := false;
     getWindowWidth := viewport; normalizeCoordinates := fun e => e |}.

(** The defaults on a viewport of 1000 px: the menu is 300 px wide. *)
Definition menu_300 : Component := menu "left" 85 300 1000.

(** A narrow menu, 40 px wide. *)
Definition menu_40 : Component := menu "left" 85 40 1000.

(** A menu given no share of the screen: 0 px wide. *)
Definition menu_0 : Component := menu "left" 0 300 1000.

(** The defaults rendered by FastBoot, where no viewport exists. *)
Definition menu_fastboot : Component :=
  {| type := "left"; width := 85; maxWidth := 300;
     triggerVelocity := 3 # 10; embed := false; isFastBoot := true;
     getWindowWidth := 0; normalizeCoordinates := fun e => e |}.

(** A menu that is fully open and at rest. *)
Definition opened (c : Component) : Menu :=
  set_position init (_width c).

(** ** Vocabulary of the properties *)

(** The drag recognition at the head of [didPan]. *)
Definition recognized (c : Component) (st : Menu) (e : PanEvent) : Menu :=
  if isOpen c st && negb (isDragging st) then
    if ltb (cx_of c e) (_width c)
    then set_dxCorrection (set_isDragging st true) (dx_of c e)
    else st
  else st.

(** The limits [didPan] puts on its target: [[-width, 0]]. *)
Definition limited (c : Component) (targetPosition : Q) : Q :=
  if gtb targetPosition 0 then 0
  else if ltb targetPosition (-1 * _width c) then -1 * _width c
  else targetPosition.

(** The two drag handlers that write [position]. *)
Definition drag (ev : Event) : bool :=
  match ev with
  | PanOpen _ | DidPan _ => true
  | _ => false
  end.

(** Every event but the frames and the completion of the [open]
    animation; the progress of a [close] frame is a fraction. *)
Definition quiet (ev : Event) : bool :=
  match ev with
  | Frame open _ => false
  | Resolve open => false
  | Frame close p => Qle_bool 0 p && Qle_bool p 1
  | _ => true
  end.

(** [position] is in range, and so is the start of a running [close]
    instance. *)
Definition settled (c : Component) (st : Menu) : Prop :=
  in_range c (position st)
  /\ (forall r, close_running st = Some r -> in_range c (close_startPos r)).

(** The reposition rule of [didPanEnd], at a given velocity and
    displacement. *)
Definition reposition_rule (c : Component) (vx dx : Q) : TaskName :=
  if ltb vx (-1 * triggerVelocity c) || gtb (-1 * dx) (_width c / 2)
  then close
  else open.

(** Frames of running tweens, in any interleaving. *)
Definition frames (fs : list (TaskName * Q)) : list Event :=
  map (fun f => Frame (fst f) (snd f)) fs.

Definition Call_eq_dec (a b : Call) : {a = b} + {a <> b}.
Proof. repeat decide equality. Defined.

(** How many times a call was made. *)
Definition count (k : Call) (st : Menu) : nat :=
  count_occ Call_eq_dec (calls st) k.

(** ** Class names

    [classNames] and [classNameBindings]: the class of the component's
    element, and one more class for each bound property that holds.
    [shadowEnabled] is an argument no handler reads. *)
Definition classNames (c : Component) (shadowEnabled : bool) (st : Menu)
  : list string :=
  ["mobile-menu"%string]
  ++ (if isLeft c then ["mobile-menu--left"%string] else [])
  ++ (if isRight c then ["mobile-menu--right"%string] else [])
  ++ (if isDragging st then ["mobile-menu--dragging"%string] else [])
  ++ (if isOpen c st then ["mobile-menu--open"%string] else [])
  ++ (if isTransitioning st then ["mobile-menu--transitioning"%string]
      else [])
  ++ (if shadowEnabled then ["mobile-menu--shadow"%string] else []).

(** ** Comparing runs *)

(** Two states that hold the same numbers, written differently or not. *)
Definition open_alike (o o' : option OpenInstance) : Prop :=
  match o, o' with
  | Some r, Some r' =>
      open_startPos r == open_startPos r' /\ open_diff r == open_diff r'
  | None, None => True
  | _, _ => False
  end.

Definition close_alike (o o' : option CloseInstance) : Prop :=
  match o, o' with
  | Some r, Some r' => close_startPos r == close_startPos r'
  | None, None => True
  | _, _ => False
  end.

Definition alike (st st' : Menu) : Prop :=
  isDragging st = isDragging st'
  /\ position st == position st'
  /\ dxCorrection st == dxCorrection st'
  /\ open_alike (open_running st) (open_running st')
  /\ close_alike (close_running st) (close_running st')
  /\ calls st = calls st'.

(** Two samples that two components read alike. *)
Definition sample_alike (c c' : Component) (e e' : PanEvent) : Prop :=
  dx_of c e == dx_of c' e'
  /\ vx_of c e == vx_of c' e'
  /\ cx_of c e == cx_of c' e'.

Definition event_alike (c c' : Component) (ev ev' : Event) : Prop :=
  match ev, ev' with
  | PanOpen e, PanOpen e' => sample_alike c c' e e'
  | PanOpenEnd e, PanOpenEnd e' => sample_alike c c' e e'
  | DidPan e, DidPan e' => sample_alike c c' e e'
  | DidPanEnd e, DidPanEnd e' => sample_alike c c' e e'
  | ActionOpen, ActionOpen => True
  | ActionClose, ActionClose => True
  | Frame t p, Frame t' p' => t = t' /\ p == p'
  | Resolve t, Resolve t' => t = t'
  | _, _ => False
  end.

(** The same menu anchored to the right edge. *)
Definition flipped (c : Component) : Component :=
  {| type := "right"; width := width c; maxWidth := maxWidth c;
     triggerVelocity := triggerVelocity c; embed := embed c;
     isFastBoot := isFastBoot c; getWindowWidth := getWindowWidth c;
     normalizeCoordinates := normalizeCoordinates c |}.

(** The same sample seen from the other edge of a window [W] wide. *)
Definition mirror (W : Q) (e : PanEvent) : PanEvent :=
  sample (- distanceX (current e)) (- velocityX (current e))
    (W - x (current e)).

Definition mirror_event (W : Q) (ev : Event) : Event :=
  match ev with
  | PanOpen e => PanOpen (mirror W e)
  | PanOpenEnd e => PanOpenEnd (mirror W e)
  | DidPan e => DidPan (mirror W e)
  | DidPanEnd e => DidPanEnd (mirror W e)
  | _ => ev
  end.

(** Events of the reposition channel. *)
Definition reposition (ev : Event) : bool :=
  match ev with
  | DidPan _ | DidPanEnd _ => true
  | _ => false
  end.

(** Every event but the end of an open-channel drag. *)
Definition not_panOpenEnd (ev : Event) : bool :=
  match ev with
  | PanOpenEnd _ => false
  | _ => true
  end.

(** Every event but the completion of an animation. *)
Definition not_resolve (ev : Event) : bool :=
  match ev with
  | Resolve _ => false
  | _ => true
  end.

(** Whether an instance of the task is running, as a number. *)
Definition running (t : TaskName) (st : Menu) : nat :=
  match t with
  | open => match open_running st with Some _ => 1 | None => 0 end
  | close => match close_running st with Some _ => 1 | None => 0 end
  end.

(** ** The open animation in binary64

    [_width], [isOpen], [relativePosition] and the [open] task once more,
    over the numbers the program computes with: IEEE 754 binary64,
    rounding to nearest.  [===] is [eqb]. *)
Module Double.
Local Open Scope float_scope.

Record Component : Type := {
  width : float;
  maxWidth : float;
  isFastBoot : bool;
  getWindowWidth : float
}.

(** [Math.min] of two numbers. *)
Definition Math_min (a b : float) : float :=
  if is_nan a || is_nan b then nan
  else if b <? a then b else a.

Definition _width (c : Component) : float :=
  if isFastBoot c
  then maxWidth c
  else Math_min (width c / 100 * getWindowWidth c) (maxWidth c).

Record OpenInstance : Type := {
  open_startPos : float;
  open_diff : float
}.

Record Menu : Type := {
  isDragging : bool;
  position : float;
  open_running : option OpenInstance;
  calls : list Call
}.

Definition init : Menu :=
  {| isDragging := false; position := 0; open_running := None;
     calls := [] |}.

Definition isOpen (c : Component) (st : Menu) : bool :=
  negb (isDragging st) && (position st =? _width c).

Definition relativePosition (c : Component) (st : Menu) : float :=
  abs (position st) / _width c.

Definition open_perform (c : Component) (st : Menu) : Menu :=
  let startPos := position st in
  let diff := _width c - startPos in
  {| isDragging := isDragging st; position := position st;
     open_running :=
       Some {| open_startPos := startPos; open_diff := diff |};
     calls := Performed open :: calls st |}.

Definition open_progress (st : Menu) (progress : float) : Menu :=
  match open_running st with
  | Some r =>
      {| isDragging := isDragging st;
         position := open_startPos r + open_diff r * progress;
         open_running := open_running st; calls := calls st |}
  | None => st
  end.

Definition open_resolve (st : Menu) : Menu :=
  match open_running st with
  | Some _ =>
      let st := open_progress st 1 in
      {| isDragging := isDragging st; position := position st;
         open_running := None; calls := onOpen :: calls st |}
  | None => st
  end.

(** The frames of the running instance, in order. *)
Definition frames (st : Menu) (ps : list float) : Menu :=
  fold_left open_progress ps st.

(** A menu of 70 percent on a window 360 px wide. *)
Definition menu_252 : Component :=
  {| width := 70; maxWidth := 300; isFastBoot := false;
     getWindowWidth := 360 |}.

End Double.

(** ** Comparisons *)

(** Divisions by the literals of the program, in the form [lra] reads. *)
Ltac literal_divisors :=
  unfold Qdiv in *;
  change (/ 2) with (1 # 2) in *;
  change (/ 100) with (1 # 100) in *.

Lemma gtb_true (a b : Q) : gtb a b = true <-> b < a.
Proof.
  unfold gtb. rewrite negb_true_iff.
  destruct (Qle_bool a b) eqn:E.
  - apply Qle_bool_iff in E. split; [discriminate | lra].
  - split; [intros _ | reflexivity].
    apply Qnot_le_lt. intros H. apply Qle_bool_iff in H. congruence.
Qed.

Lemma gtb_false (a b : Q) : gtb a b = false <-> a <= b.
Proof.
  destruct (gtb a b) eqn:E.
  - apply gtb_true in E. split; [discriminate | lra].
  - split; [intros _ | reflexivity].
    apply Qnot_lt_le. intros H. apply gtb_true in H. congruence.
Qed.

Lemma ltb_true (a b : Q) : ltb a b = true <-> a < b.
Proof. exact (gtb_true b a). Qed.

Lemma ltb_false (a b : Q) : ltb a b = false <-> b <= a.
Proof. exact (gtb_false b a). Qed.

Lemma Qmin_cases (a b : Q) :
  (a <= b /\ Qmin a b == a) \/ (b <= a /\ Qmin a b == b).
Proof.
  destruct (Q.min_spec a b) as [[H E] | [H E]]; [left | right];
    split; try assumption; lra.
Qed.

Lemma Qmax_cases (a b : Q) :
  (a <= b /\ Qmax a b == b) \/ (b <= a /\ Qmax a b == a).
Proof.
  destruct (Q.max_spec a b) as [[H E] | [H E]]; [left | right];
    split; try assumption; lra.
Qed.

(** ** Effective width *)

Lemma _width_nonneg (c : Component) :
  0 <= width c -> 0 <= maxWidth c -> 0 <= getWindowWidth c -> 0 <= _width c.
Proof.
  intros Hw Hm Hv. unfold _width.
  destruct (isFastBoot c); [assumption |].
  assert (0 <= width c / 100 * getWindowWidth c).
  { apply Qmult_le_0_compat; [literal_divisors; lra | assumption]. }
  destruct (Qmin_cases (width c / 100 * getWindowWidth c) (maxWidth c))
    as [[_ E] | [_ E]]; rewrite E; assumption.
Qed.

(** C6: with a viewport the derived width is
    [min (width / 100 * viewport) maxWidth], without one (FastBoot) it is
    [maxWidth], and for a percentage in [0, 100], a positive maximum and a
    non-negative viewport it is not negative. *)
Theorem effective_width_formula (c : Component) :
  (isFastBoot c = false ->
     _width c == Qmin (width c / 100 * getWindowWidth c) (maxWidth c))
  /\ (isFastBoot c = true -> _width c == maxWidth c)
  /\ (0 <= width c <= 100 -> 0 < maxWidth c -> 0 <= getWindowWidth c ->
      0 <= _width c).
Proof.
  unfold _width at 1 2. repeat split.
  - intros ->. reflexivity.
  - intros ->. reflexivity.
  - intros [Hw _] Hm Hv. apply _width_nonneg; lra.
Qed.

Lemma effective_width_formula_witness :
  _width menu_300 == 300 /\ 0 <= _width menu_300
  /\ _width (menu "right" 50 300 400) == 200
  /\ _width menu_fastboot == 300.
Proof.
  split; [| split; [| split]].
  - rewrite (proj1 (effective_width_formula menu_300) eq_refl).
    vm_compute. reflexivity.
  - apply (proj2 (proj2 (effective_width_formula menu_300)));
      vm_compute; try split; congruence.
  - rewrite (proj1 (effective_width_formula (menu "right" 50 300 400)) eq_refl).
    vm_compute. reflexivity.
  - rewrite (proj1 (proj2 (effective_width_formula menu_fastboot)) eq_refl).
    reflexivity.
Defined.

(** ** Decisions at the end of a gesture *)

Lemma calls_open_perform (c : Component) (st : Menu) :
  calls (open_perform c st) = Performed open :: calls st.
Proof. reflexivity. Qed.

Lemma calls_close_perform (st : Menu) :
  calls (close_perform st) = Performed close :: calls st.
Proof. reflexivity. Qed.

(** What [panOpenEnd] computes, in the vocabulary of the specification. *)
Lemma panOpenEnd_unfold (c : Component) (st : Menu) (e : PanEvent) :
  panOpenEnd c st e =
  if gtb (vx_of c e) (triggerVelocity c) || gtb (dx_of c e) (_width c / 2)
  then open_perform c (set_isDragging st false)
  else close_perform (set_isDragging st false).
Proof.
  unfold panOpenEnd, vx_of, dx_of, directionalize, normalized.
  destruct (isLeft c); reflexivity.
Qed.

Lemma panOpenEnd_open (c : Component) (st : Menu) (e : PanEvent) :
  calls (panOpenEnd c st e) = Performed open :: calls st <->
  triggerVelocity c < vx_of c e \/ _width c / 2 < dx_of c e.
Proof.
  rewrite panOpenEnd_unfold, <- !gtb_true, <- orb_true_iff.
  destruct (_ || _).
  - rewrite calls_open_perform. simpl. tauto.
  - rewrite calls_close_perform. simpl.
    split; [intros H; inversion H | discriminate].
Qed.

Lemma panOpenEnd_close (c : Component) (st : Menu) (e : PanEvent) :
  calls (panOpenEnd c st e) = Performed close :: calls st <->
  ~ (triggerVelocity c < vx_of c e \/ _width c / 2 < dx_of c e).
Proof.
  rewrite panOpenEnd_unfold, <- !gtb_true, <- orb_true_iff.
  destruct (_ || _).
  - rewrite calls_open_perform. simpl.
    split; [intros H; inversion H | intros H; exfalso; auto].
  - rewrite calls_close_perform. simpl.
    split; [intros _; discriminate | reflexivity].
Qed.

(** C1: at the end of an open-channel drag [open] is performed exactly when
    [vx > triggerVelocity] or [dx > width / 2], and [close] is performed
    otherwise, [vx] and [dx] being the directionalized velocity and
    displacement of the sample; for a width of 300 and a trigger velocity of
    0.3, [dx = 200, vx = 0] opens, [dx = 100, vx = 0] closes and [vx = 0.5]
    opens whatever [dx] is. *)
Theorem panOpenEnd_decision (c : Component) (st : Menu) (e : PanEvent) :
  (calls (panOpenEnd c st e) = Performed open :: calls st <->
     triggerVelocity c < vx_of c e \/ _width c / 2 < dx_of c e)
  /\ (calls (panOpenEnd c st e) = Performed close :: calls st <->
        ~ (triggerVelocity c < vx_of c e \/ _width c / 2 < dx_of c e))
  /\ (_width c == 300 -> triggerVelocity c == 3 # 10 ->
        (dx_of c e == 200 -> vx_of c e == 0 ->
           calls (panOpenEnd c st e) = Performed open :: calls st)
        /\ (dx_of c e == 100 -> vx_of c e == 0 ->
              calls (panOpenEnd c st e) = Performed close :: calls st)
        /\ (vx_of c e == 1 # 2 ->
              calls (panOpenEnd c st e) = Performed open :: calls st)).
Proof.
  split; [apply panOpenEnd_open |].
  split; [apply panOpenEnd_close |].
  intros Hw Ht. split; [| split].
  - intros Hd Hv. apply panOpenEnd_open. right. literal_divisors. lra.
  - intros Hd Hv. apply panOpenEnd_close. literal_divisors. lra.
  - intros Hv. apply panOpenEnd_open. left. lra.
Qed.

Lemma panOpenEnd_decision_witness :
  calls (panOpenEnd menu_300 init (sample 200 0 200)) = [Performed open]
  /\ calls (panOpenEnd menu_300 init (sample 100 0 100)) = [Performed close]
  /\ calls (panOpenEnd menu_300 init (sample 0 (1 # 2) 0)) = [Performed open].
Proof.
  assert (Hw : _width menu_300 == 300) by (vm_compute; reflexivity).
  assert (Ht : triggerVelocity menu_300 == 3 # 10) by reflexivity.
  split; [| split].
  - apply (proj1 (proj2 (proj2 (panOpenEnd_decision menu_300 init _)) Hw Ht));
      reflexivity.
  - apply (proj1 (proj2 (proj2 (proj2 (panOpenEnd_decision menu_300 init _)) Hw Ht)));
      reflexivity.
  - apply (proj2 (proj2 (proj2 (proj2 (panOpenEnd_decision menu_300 init _)) Hw Ht)));
      reflexivity.
Defined.

(** What [didPanEnd] computes while dragging. *)
Lemma didPanEnd_unfold (c : Component) (st : Menu) (e : PanEvent) :
  isDragging st = true ->
  didPanEnd c st e =
  set_dxCorrection
    (if ltb (vx_of c e) (-1 * triggerVelocity c)
        || gtb (-1 * dx_of c e) (_width c / 2)
     then close_perform (set_isDragging st false)
     else open_perform c (set_isDragging st false)) 0.
Proof.
  intros H.
  unfold didPanEnd, vx_of, dx_of, directionalize, normalized. rewrite H.
  destruct (isLeft c); reflexivity.
Qed.

Lemma didPanEnd_close (c : Component) (st : Menu) (e : PanEvent) :
  isDragging st = true ->
  (calls (didPanEnd c st e) = Performed close :: calls st <->
   vx_of c e < - triggerVelocity c \/ _width c / 2 < - dx_of c e).
Proof.
  intros H. rewrite (didPanEnd_unfold c st e H).
  assert (E : ltb (vx_of c e) (-1 * triggerVelocity c)
              || gtb (-1 * dx_of c e) (_width c / 2) = true <->
              vx_of c e < - triggerVelocity c \/ _width c / 2 < - dx_of c e).
  { rewrite orb_true_iff, ltb_true, gtb_true.
    split; (intros [L | R]; [left | right]); lra. }
  rewrite <- E. destruct (_ || _); simpl.
  - tauto.
  - split; [intros K; inversion K | discriminate].
Qed.

Lemma didPanEnd_open (c : Component) (st : Menu) (e : PanEvent) :
  isDragging st = true ->
  (calls (didPanEnd c st e) = Performed open :: calls st <->
   ~ (vx_of c e < - triggerVelocity c \/ _width c / 2 < - dx_of c e)).
Proof.
  intros H. rewrite <- (didPanEnd_close c st e H).
  rewrite (didPanEnd_unfold c st e H).
  destruct (_ || _); simpl.
  - split; [intros K; inversion K | intros K; exfalso; auto].
  - split; [intros _ K; inversion K | reflexivity].
Qed.

(** C2: at the end of a reposition-channel drag ([isDragging] true at
    entry) [close] is performed exactly when [vx < -triggerVelocity] or
    [-dx > width / 2], and [open] is performed otherwise; for a width of
    300 and a trigger velocity of 0.3, [dx = -200, vx = 0] closes,
    [dx = -100, vx = 0] opens and [vx = -0.5] closes whatever [dx] is. *)
Theorem didPanEnd_decision (c : Component) (st : Menu) (e : PanEvent) :
  isDragging st = true ->
  (calls (didPanEnd c st e) = Performed close :: calls st <->
     vx_of c e < - triggerVelocity c \/ _width c / 2 < - dx_of c e)
  /\ (calls (didPanEnd c st e) = Performed open :: calls st <->
        ~ (vx_of c e < - triggerVelocity c \/ _width c / 2 < - dx_of c e))
  /\ (_width c == 300 -> triggerVelocity c == 3 # 10 ->
        (dx_of c e == - 200 -> vx_of c e == 0 ->
           calls (didPanEnd c st e) = Performed close :: calls st)
        /\ (dx_of c e == - 100 -> vx_of c e == 0 ->
              calls (didPanEnd c st e) = Performed open :: calls st)
        /\ (vx_of c e == - (1 # 2) ->
              calls (didPanEnd c st e) = Performed close :: calls st)).
Proof.
  intros H.
  split; [apply didPanEnd_close; assumption |].
  split; [apply didPanEnd_open; assumption |].
  intros Hw Ht. split; [| split].
  - intros Hd Hv. apply didPanEnd_close; [assumption |].
    right. literal_divisors. lra.
  - intros Hd Hv. apply didPanEnd_open; [assumption |].
    literal_divisors. lra.
  - intros Hv. apply didPanEnd_close; [assumption |]. left. lra.
Qed.

Lemma didPanEnd_decision_witness :
  let st := set_isDragging (opened menu_300) true in
  calls (didPanEnd menu_300 st (sample (- 200) 0 50)) = [Performed close]
  /\ calls (didPanEnd menu_300 st (sample (- 100) 0 150)) = [Performed open]
  /\ calls (didPanEnd menu_300 st (sample 0 (- (1 # 2)) 250))
     = [Performed close].
Proof.
  intros st.
  assert (Hw : _width menu_300 == 300) by (vm_compute; reflexivity).
  assert (Ht : triggerVelocity menu_300 == 3 # 10) by reflexivity.
  split; [| split].
  - apply (proj1 (proj2 (proj2 (didPanEnd_decision menu_300 st _ eq_refl)) Hw Ht));
      reflexivity.
  - apply (proj1 (proj2 (proj2 (proj2 (didPanEnd_decision menu_300 st _ eq_refl)) Hw Ht)));
      reflexivity.
  - apply (proj2 (proj2 (proj2 (proj2 (didPanEnd_decision menu_300 st _ eq_refl)) Hw Ht)));
      reflexivity.
Defined.

(** ** The range of [position] *)

Lemma panOpen_position (c : Component) (st : Menu) (e : PanEvent) :
  position (panOpen c st e) = Qmin (Qmax (dx_of c e) 0) (_width c).
Proof.
  unfold panOpen, dx_of, directionalize, normalized.
  destruct (isLeft c); reflexivity.
Qed.

Lemma clamp_in_range (c : Component) (d : Q) :
  0 <= _width c -> in_range c (Qmin (Qmax d 0) (_width c)).
Proof.
  intros Hw. unfold in_range.
  destruct (Qmax_cases d 0) as [[Hd Ed] | [Hd Ed]];
    destruct (Qmin_cases (Qmax d 0) (_width c)) as [[Hm Em] | [Hm Em]];
    rewrite Em; lra.
Qed.

Lemma didPan_unfold (c : Component) (st : Menu) (e : PanEvent) :
  didPan c st e =
  if isDragging (recognized c st e) then
    if ltb (cx_of c e) (_width c)
    then set_position (recognized c st e)
           (_width c
            + limited c (dx_of c e - dxCorrection (recognized c st e)))
    else recognized c st e
  else recognized c st e.
Proof.
  unfold didPan, recognized, limited, cx_of, dx_of, directionalize,
    normalized.
  destruct (isLeft c); reflexivity.
Qed.

Lemma limited_bounds (c : Component) (t : Q) :
  0 <= _width c -> - _width c <= limited c t <= 0.
Proof.
  intros Hw. unfold limited.
  destruct (gtb t 0) eqn:G; [lra |].
  apply gtb_false in G.
  destruct (ltb t (-1 * _width c)) eqn:L; [lra |].
  apply ltb_false in L. lra.
Qed.

Lemma recognized_position (c : Component) (st : Menu) (e : PanEvent) :
  position (recognized c st e) = position st.
Proof.
  unfold recognized.
  destruct (isOpen c st && negb (isDragging st)); [| reflexivity].
  destruct (ltb (cx_of c e) (_width c)); reflexivity.
Qed.

Lemma recognized_running (c : Component) (st : Menu) (e : PanEvent) :
  open_running (recognized c st e) = open_running st
  /\ close_running (recognized c st e) = close_running st
  /\ calls (recognized c st e) = calls st.
Proof.
  unfold recognized.
  destruct (isOpen c st && negb (isDragging st)); [| repeat split].
  destruct (ltb (cx_of c e) (_width c)); repeat split.
Qed.

Lemma didPan_position (c : Component) (st : Menu) (e : PanEvent) :
  0 <= _width c ->
  position (didPan c st e) = position st
  \/ in_range c (position (didPan c st e)).
Proof.
  intros Hw. rewrite didPan_unfold.
  destruct (isDragging (recognized c st e));
    [| left; apply recognized_position].
  destruct (ltb (cx_of c e) (_width c));
    [| left; apply recognized_position].
  right. simpl. unfold in_range.
  pose proof (limited_bounds c
                (dx_of c e - dxCorrection (recognized c st e)) Hw).
  lra.
Qed.

Lemma didPan_running (c : Component) (st : Menu) (e : PanEvent) :
  open_running (didPan c st e) = open_running st
  /\ close_running (didPan c st e) = close_running st
  /\ calls (didPan c st e) = calls st.
Proof.
  rewrite didPan_unfold.
  destruct (isDragging (recognized c st e));
    [| apply recognized_running].
  destruct (ltb (cx_of c e) (_width c)); apply recognized_running.
Qed.

(** C3: with a width that is not negative, [panOpen] always leaves
    [position] in [[0, width]], [didPan] leaves it where it was or in
    [[0, width]], and so every sequence of samples on the two channels
    keeps a position that is in [[0, width]] there. *)
Theorem drag_position_in_range (c : Component) :
  0 <= _width c ->
  (forall st e, in_range c (position (panOpen c st e)))
  /\ (forall st e,
        position (didPan c st e) = position st
        \/ in_range c (position (didPan c st e)))
  /\ (forall evs st,
        forallb drag evs = true ->
        in_range c (position st) ->
        in_range c (position (run c st evs))).
Proof.
  intros Hw.
  assert (P : forall st e, in_range c (position (panOpen c st e))).
  { intros st e. rewrite panOpen_position. apply clamp_in_range, Hw. }
  split; [exact P |].
  split; [intros st e; apply didPan_position, Hw |].
  induction evs as [| ev evs IH]; intros st Hd Hp; [exact Hp |].
  simpl in Hd. apply andb_true_iff in Hd. destruct Hd as [Hev Hd].
  simpl. apply IH; [exact Hd |].
  destruct ev; try discriminate.
  - exact (P st e).
  - change (step c st (DidPan e)) with (didPan c st e).
    destruct (didPan_position c st e Hw) as [E | R]; [rewrite E |];
      assumption.
Qed.

Lemma drag_position_in_range_witness :
  in_range menu_300
    (position (run menu_300 (opened menu_300)
                 [DidPan (sample 30 0 150); DidPan (sample (- 400) 0 10);
                  PanOpen (sample 500 0 500)])).
Proof.
  assert (Hw : 0 <= _width menu_300) by (vm_compute; discriminate).
  refine (proj2 (proj2 (drag_position_in_range menu_300 Hw))
            [DidPan (sample 30 0 150); DidPan (sample (- 400) 0 10);
             PanOpen (sample 500 0 500)] (opened menu_300) _ _).
  - reflexivity.
  - vm_compute. split; discriminate.
Defined.

(** ** The range of [position] apart from the open animation *)

Lemma settled_init (c : Component) : 0 <= _width c -> settled c init.
Proof.
  intros Hw. unfold settled, in_range. simpl.
  split; [lra | intros r H; discriminate H].
Qed.

Lemma settled_open_perform (c : Component) (st : Menu) :
  settled c st -> settled c (open_perform c st).
Proof. intros H. exact H. Qed.

Lemma settled_close_perform (c : Component) (st : Menu) :
  settled c st -> settled c (close_perform st).
Proof.
  intros (Hp & Hc). unfold settled. simpl.
  split; [exact Hp |].
  intros r E. inversion E; subst r; clear E. exact Hp.
Qed.

Lemma settled_close_progress (c : Component) (st : Menu) (p : Q) :
  0 <= p <= 1 -> settled c st -> settled c (close_progress st p).
Proof.
  intros Hf H. unfold close_progress.
  destruct (close_running st) as [r |] eqn:E; [| exact H].
  destruct H as (Hp & Hc).
  pose proof (Hc r E) as Hs. unfold settled. simpl.
  split; [| exact Hc].
  unfold in_range in *. split; nra.
Qed.

Lemma settled_close_resolve (c : Component) (st : Menu) :
  settled c st -> settled c (close_resolve st).
Proof.
  intros H. unfold close_resolve.
  destruct (close_running st) as [r |] eqn:E; [| exact H].
  assert (K : settled c (close_progress st 1)).
  { apply settled_close_progress; [lra | exact H]. }
  destruct K as (Kp & _). unfold settled. simpl.
  split; [exact Kp | intros r' D; discriminate D].
Qed.

Lemma settled_panOpen (c : Component) (st : Menu) (e : PanEvent) :
  0 <= _width c -> settled c st -> settled c (panOpen c st e).
Proof.
  intros Hw (Hp & Hc).
  pose proof (clamp_in_range c (dx_of c e) Hw) as K.
  rewrite <- panOpen_position with (st := st) in K.
  split; [exact K | exact Hc].
Qed.

Lemma settled_panOpenEnd (c : Component) (st : Menu) (e : PanEvent) :
  settled c st -> settled c (panOpenEnd c st e).
Proof.
  intros H. rewrite panOpenEnd_unfold.
  destruct (_ || _);
    [apply settled_open_perform | apply settled_close_perform];
    exact H.
Qed.

Lemma settled_didPan (c : Component) (st : Menu) (e : PanEvent) :
  0 <= _width c -> settled c st -> settled c (didPan c st e).
Proof.
  intros Hw (Hp & Hc).
  destruct (didPan_running c st e) as (_ & Ec & _).
  unfold settled. rewrite Ec. split; [| exact Hc].
  destruct (didPan_position c st e Hw) as [E | R]; [rewrite E |];
    assumption.
Qed.

Lemma settled_didPanEnd (c : Component) (st : Menu) (e : PanEvent) :
  settled c st -> settled c (didPanEnd c st e).
Proof.
  intros H. destruct (isDragging st) eqn:D.
  - rewrite (didPanEnd_unfold c st e D).
    destruct (_ || _);
      [apply (settled_close_perform c (set_isDragging st false))
      | apply (settled_open_perform c (set_isDragging st false))];
      exact H.
  - unfold didPanEnd. rewrite D. exact H.
Qed.

Lemma settled_step (c : Component) (st : Menu) (ev : Event) :
  0 <= _width c -> quiet ev = true ->
  settled c st -> settled c (step c st ev).
Proof.
  intros Hw Hq H.
  destruct ev as [e | e | e | e | | | [|] p | [|]];
    try discriminate Hq; cbn [step].
  - apply settled_panOpen; assumption.
  - apply settled_panOpenEnd; assumption.
  - apply settled_didPan; assumption.
  - apply settled_didPanEnd; assumption.
  - apply settled_open_perform; assumption.
  - apply settled_close_perform; assumption.
  - simpl in Hq. apply andb_true_iff in Hq.
    rewrite !Qle_bool_iff in Hq.
    apply settled_close_progress; assumption.
  - apply settled_close_resolve; assumption.
Qed.

Lemma settled_run (c : Component) (evs : list Event) (st : Menu) :
  0 <= _width c -> forallb quiet evs = true ->
  settled c st -> settled c (run c st evs).
Proof.
  intros Hw. revert st.
  induction evs as [| ev evs IH]; intros st Hq H; [exact H |].
  simpl in Hq. apply andb_true_iff in Hq. destruct Hq as [Hev Hq].
  simpl. apply IH; [exact Hq |].
  apply settled_step; assumption.
Qed.

(** ** Relative position *)

Lemma divide_finite (a b : Q) : ~ b == 0 -> divide a b = Finite (a / b).
Proof.
  intros H. unfold divide.
  destruct (Qeq_bool b 0) eqn:E; [| reflexivity].
  apply Qeq_bool_iff in E. contradiction.
Qed.

(** C9, amended: for a width that is positive, [relativePosition] is the
    number [|position| / width]; it lies in [[0, 1]] whenever [position]
    is in [[0, width]], and so in every state reached through the pan
    handlers, [open()] and [close()] and the frames and completion of the
    [close] animation. *)
Theorem relativePosition_bound (c : Component) :
  0 < _width c ->
  (forall st,
     relativePosition c st = Finite (Qabs (position st) / _width c))
  /\ (forall st,
        in_range c (position st) -> in_unit (relativePosition c st))
  /\ (forall evs,
        forallb quiet evs = true ->
        in_unit (relativePosition c (run c init evs))).
Proof.
  intros Hw.
  assert (E : forall st,
             relativePosition c st
             = Finite (Qabs (position st) / _width c)).
  { intros st. apply divide_finite. lra. }
  assert (U : forall st,
             in_range c (position st) -> in_unit (relativePosition c st)).
  { intros st [Hl Hu]. rewrite E. simpl.
    rewrite (Qabs_pos _ Hl). split.
    - apply Qle_shift_div_l; [exact Hw | lra].
    - apply Qle_shift_div_r; [exact Hw | lra]. }
  split; [exact E |]. split; [exact U |].
  intros evs Hq. apply U.
  apply (settled_run c evs init); [lra | exact Hq |].
  apply settled_init. lra.
Qed.

Lemma relativePosition_bound_witness :
  in_unit
    (relativePosition menu_300
       (run menu_300 init
          [PanOpen (sample 120 0 120); PanOpenEnd (sample 120 0 120);
           Frame close (1 # 2)])).
Proof.
  refine (proj2 (proj2 (relativePosition_bound menu_300 _))
            [PanOpen (sample 120 0 120); PanOpenEnd (sample 120 0 120);
             Frame close (1 # 2)] _).
  - vm_compute. reflexivity.
  - reflexivity.
Defined.

(** C9 as stated fails for a menu whose width is 0: the quotient is [0/0]. *)
Lemma relativePosition_zero_width :
  0 <= width menu_0 <= 100 /\ 0 < maxWidth menu_0
  /\ 0 <= getWindowWidth menu_0
  /\ reachable menu_0 init
  /\ relativePosition menu_0 init = NaN
  /\ ~ in_unit (relativePosition menu_0 init).
Proof.
  split; [split; discriminate |].
  split; [reflexivity |].
  split; [discriminate |].
  split; [exists []; split; reflexivity |].
  split; [reflexivity |].
  intros H. exact H.
Qed.

(** ** The correction offset *)

(** Recognition of a drag on an open menu, inside its footprint. *)
Lemma recognized_begin (c : Component) (st : Menu) (e : PanEvent) :
  isOpen c st = true -> cx_of c e < _width c ->
  recognized c st e = set_dxCorrection (set_isDragging st true) (dx_of c e).
Proof.
  intros Ho Hc. unfold recognized.
  assert (D : isDragging st = false).
  { unfold isOpen in Ho. apply andb_true_iff in Ho.
    destruct Ho as [Ho _]. apply negb_true_iff in Ho. exact Ho. }
  rewrite Ho, D. simpl.
  apply ltb_true in Hc. rewrite Hc. reflexivity.
Qed.

(** While a drag is going on nothing is recognized anew. *)
Lemma recognized_dragging (c : Component) (st : Menu) (e : PanEvent) :
  isDragging st = true -> recognized c st e = st.
Proof.
  intros D. unfold recognized. rewrite D, andb_false_r. reflexivity.
Qed.

Lemma didPan_dragging (c : Component) (st : Menu) (e : PanEvent) :
  isDragging st = true ->
  isDragging (didPan c st e) = true
  /\ dxCorrection (didPan c st e) = dxCorrection st.
Proof.
  intros D. rewrite didPan_unfold, (recognized_dragging c st e D), D.
  destruct (ltb (cx_of c e) (_width c)); simpl; auto.
Qed.

Lemma didPan_samples_dragging
  (c : Component) (es : list PanEvent) (st : Menu) :
  isDragging st = true ->
  isDragging (run c st (map DidPan es)) = true
  /\ dxCorrection (run c st (map DidPan es)) = dxCorrection st.
Proof.
  revert st. induction es as [| e es IH]; intros st D; [auto |].
  simpl. destruct (didPan_dragging c st e D) as [D' K'].
  destruct (IH (didPan c st e) D') as [D'' K''].
  split; [exact D'' | congruence].
Qed.

Lemma didPan_dragging_position (c : Component) (st : Menu) (e : PanEvent) :
  isDragging st = true -> cx_of c e < _width c ->
  position (didPan c st e)
  = _width c + limited c (dx_of c e - dxCorrection st).
Proof.
  intros D Hc. rewrite didPan_unfold, (recognized_dragging c st e D), D.
  apply ltb_true in Hc. rewrite Hc. reflexivity.
Qed.

Lemma limited_inside (c : Component) (t : Q) :
  - _width c <= t <= 0 -> limited c t == t.
Proof.
  intros [Hl Hu]. unfold limited.
  destruct (gtb t 0) eqn:G; [apply gtb_true in G; lra |].
  destruct (ltb t (-1 * _width c)) eqn:L; [apply ltb_true in L; lra |].
  reflexivity.
Qed.

Lemma limited_eq (c : Component) (s t : Q) :
  s == t -> limited c s == limited c t.
Proof.
  intros E. unfold limited.
  assert (G : gtb s 0 = gtb t 0).
  { destruct (gtb t 0) eqn:K.
    - apply gtb_true. apply gtb_true in K. lra.
    - apply gtb_false. apply gtb_false in K. lra. }
  assert (L : ltb s (-1 * _width c) = ltb t (-1 * _width c)).
  { destruct (ltb t (-1 * _width c)) eqn:K.
    - apply ltb_true. apply ltb_true in K. lra.
    - apply ltb_false. apply ltb_false in K. lra. }
  rewrite G, L.
  destruct (gtb t 0); [reflexivity |].
  destruct (ltb t (-1 * _width c)); [reflexivity | exact E].
Qed.

(** C4, amended: on a menu at least 50 wide, a reposition sample that
    arrives while the menu is open, with the pointer inside the footprint,
    starts the drag and captures the directionalized displacement of that
    sample as [dxCorrection], leaving the menu at full width; whatever
    samples follow, one whose displacement is 50 less than the captured
    one, pointer inside the footprint, puts the menu at [width - 50],
    whatever the captured displacement was. *)
Theorem drag_correction_compensation
  (c : Component) (st : Menu) (e1 : PanEvent) (es : list PanEvent)
  (e2 : PanEvent) :
  50 <= _width c ->
  isOpen c st = true ->
  cx_of c e1 < _width c ->
  cx_of c e2 < _width c ->
  dx_of c e2 == dx_of c e1 - 50 ->
  isDragging (didPan c st e1) = true
  /\ dxCorrection (didPan c st e1) = dx_of c e1
  /\ position (didPan c st e1) == _width c
  /\ position (run c st (map DidPan (e1 :: es ++ [e2]))) == _width c - 50.
Proof.
  intros Hw Ho H1 H2 Hd.
  assert (B : didPan c st e1
              = set_position
                  (set_dxCorrection (set_isDragging st true) (dx_of c e1))
                  (_width c + limited c (dx_of c e1 - dx_of c e1))).
  { rewrite didPan_unfold, (recognized_begin c st e1 Ho H1). simpl.
    apply ltb_true in H1. rewrite H1. reflexivity. }
  assert (D1 : isDragging (didPan c st e1) = true) by (rewrite B; reflexivity).
  assert (K1 : dxCorrection (didPan c st e1) = dx_of c e1)
    by (rewrite B; reflexivity).
  split; [exact D1 |]. split; [exact K1 |]. split.
  - rewrite B. simpl.
    rewrite (limited_eq c _ 0) by lra.
    rewrite limited_inside by lra. lra.
  - rewrite map_cons, map_app. simpl. unfold run.
    rewrite fold_left_app. simpl. fold (run c (didPan c st e1) (map DidPan es)).
    destruct (didPan_samples_dragging c es (didPan c st e1) D1) as [D K].
    rewrite (didPan_dragging_position c _ e2 D H2), K, K1.
    rewrite (limited_eq c _ (- 50)) by lra.
    rewrite limited_inside by lra. lra.
Qed.

Lemma drag_correction_compensation_witness :
  position
    (run menu_300 (opened menu_300)
       (map DidPan
          [sample (- 110) 0 150; sample (- 130) 0 130;
           sample (- 160) 0 100]))
  == 250.
Proof.
  assert (E : _width menu_300 - 50 == 250) by (vm_compute; reflexivity).
  rewrite <- E.
  refine (proj2 (proj2 (proj2
    (drag_correction_compensation menu_300 (opened menu_300)
       (sample (- 110) 0 150) [sample (- 130) 0 130]
       (sample (- 160) 0 100) _ _ _ _ _)))).
  - vm_compute. discriminate.
  - vm_compute. reflexivity.
  - vm_compute. reflexivity.
  - vm_compute. reflexivity.
  - vm_compute. reflexivity.
Defined.

(** C4 as stated fails on a menu narrower than 50: the limit [-width]
    holds the menu at 0.  The menu is 40 wide, the gesture starts at
    [cx = 20] and moves 50 towards the anchored edge. *)
Lemma drag_correction_narrow_menu :
  let st1 := didPan menu_40 (opened menu_40) (sample 0 0 20) in
  let st2 := didPan menu_40 st1 (sample (- 50) 0 (- 30)) in
  _width menu_40 == 40
  /\ isOpen menu_40 (opened menu_40) = true
  /\ cx_of menu_40 (sample 0 0 20) == _width menu_40 / 2
  /\ cx_of menu_40 (sample (- 50) 0 (- 30)) < _width menu_40
  /\ isDragging st1 = true
  /\ dxCorrection st1 == 0
  /\ dx_of menu_40 (sample (- 50) 0 (- 30)) - dxCorrection st1 == - 50
  /\ position st2 == 0
  /\ ~ position st2 == _width menu_40 - 50.
Proof.
  vm_compute. repeat split; try reflexivity; discriminate.
Qed.

(** ** The decision and the correction offset *)

Lemma didPanEnd_rule (c : Component) (st : Menu) (e : PanEvent) :
  isDragging st = true ->
  calls (didPanEnd c st e)
  = Performed (reposition_rule c (vx_of c e) (dx_of c e)) :: calls st.
Proof.
  intros D. rewrite (didPanEnd_unfold c st e D). unfold reposition_rule.
  destruct (_ || _); reflexivity.
Qed.

Lemma reposition_rule_close (c : Component) (vx dx : Q) :
  reposition_rule c vx dx = close <->
  vx < - triggerVelocity c \/ _width c / 2 < - dx.
Proof.
  unfold reposition_rule.
  assert (E : ltb vx (-1 * triggerVelocity c)
              || gtb (-1 * dx) (_width c / 2) = true <->
              vx < - triggerVelocity c \/ _width c / 2 < - dx).
  { rewrite orb_true_iff, ltb_true, gtb_true.
    split; (intros [L | R]; [left | right]); lra. }
  rewrite <- E. destruct (_ || _).
  - tauto.
  - split; discriminate.
Qed.

Lemma reposition_rule_differs (c : Component) (k : Q) :
  ~ k == 0 ->
  exists vx dx, reposition_rule c vx dx <> reposition_rule c vx (dx - k).
Proof.
  intros Hk. exists (- triggerVelocity c).
  destruct (Qlt_le_dec 0 k) as [Hp | Hn].
  - exists (- (_width c / 2)).
    assert (A : reposition_rule c (- triggerVelocity c)
                  (- (_width c / 2) - k) = close).
    { apply reposition_rule_close. right. lra. }
    rewrite A. intros B. apply reposition_rule_close in B. lra.
  - exists (- (_width c / 2) + k).
    assert (A : reposition_rule c (- triggerVelocity c)
                  (- (_width c / 2) + k) = close).
    { apply reposition_rule_close. right. lra. }
    rewrite A. intros B. symmetry in B.
    apply reposition_rule_close in B. lra.
Qed.

(** C10: at the end of a reposition drag the rule is evaluated on the raw
    directionalized displacement of the sample, whatever [dxCorrection]
    holds; so whenever the captured correction is not zero there are a
    velocity and a displacement at which this decision is not the one the
    corrected displacement [dx - dxCorrection] selects. *)
Theorem didPanEnd_ignores_dxCorrection
  (c : Component) (st : Menu) (e : PanEvent) :
  isDragging st = true ->
  calls (didPanEnd c st e)
  = Performed (reposition_rule c (vx_of c e) (dx_of c e)) :: calls st
  /\ (forall k, calls (didPanEnd c (set_dxCorrection st k) e)
                = calls (didPanEnd c st e))
  /\ (~ dxCorrection st == 0 ->
      exists vx dx,
        reposition_rule c vx dx
        <> reposition_rule c vx (dx - dxCorrection st)).
Proof.
  intros D. split; [apply didPanEnd_rule, D |]. split.
  - intros k. rewrite !didPanEnd_rule by exact D. reflexivity.
  - apply reposition_rule_differs.
Qed.

(** A gesture on the 300 px menu that starts outside the footprint, is
    recognized at [dx = -110] and ends 50 px further, at rest: the menu is
    at 250, the corrected displacement selects [open], [close] is
    performed. *)
Lemma didPanEnd_ignores_dxCorrection_witness :
  let st := run menu_300 (opened menu_300)
              (map DidPan [sample (- 110) 0 290; sample (- 160) 0 240]) in
  let e := sample (- 160) 0 240 in
  position st == 250
  /\ calls (didPanEnd menu_300 st e) = [Performed close]
  /\ reposition_rule menu_300 (vx_of menu_300 e)
       (dx_of menu_300 e - dxCorrection st) = open
  /\ exists vx dx,
       reposition_rule menu_300 vx dx
       <> reposition_rule menu_300 vx (dx - dxCorrection st).
Proof.
  intros st e.
  split; [vm_compute; reflexivity |].
  split; [| split; [vm_compute; reflexivity |]].
  - rewrite (proj1 (didPanEnd_ignores_dxCorrection menu_300 st e eq_refl)).
    reflexivity.
  - apply (proj2 (proj2
             (didPanEnd_ignores_dxCorrection menu_300 st e eq_refl))).
    vm_compute. discriminate.
Defined.

(** ** The two writers of [position] *)

Lemma panOpenEnd_isDragging (c : Component) (st : Menu) (e : PanEvent) :
  isDragging (panOpenEnd c st e) = false.
Proof. rewrite panOpenEnd_unfold. destruct (_ || _); reflexivity. Qed.

Lemma didPanEnd_isDragging (c : Component) (st : Menu) (e : PanEvent) :
  isDragging (didPanEnd c st e) = false.
Proof.
  destruct (isDragging st) eqn:D.
  - rewrite (didPanEnd_unfold c st e D). destruct (_ || _); reflexivity.
  - unfold didPanEnd. rewrite D. exact D.
Qed.

Lemma panOpen_running (c : Component) (st : Menu) (e : PanEvent) :
  isDragging (panOpen c st e) = true
  /\ open_running (panOpen c st e) = open_running st
  /\ close_running (panOpen c st e) = close_running st.
Proof. repeat split. Qed.

(** C5, amended: the handlers that end a gesture leave [isDragging] false,
    having cleared it before they perform their task; performing [open]
    replaces the running [open] instance, performing [close] the running
    [close] instance, and neither touches the other task's instance or
    [isDragging]; [panOpen] sets [isDragging] and [didPan] may, and
    neither cancels an instance. *)
Theorem writers_discipline (c : Component) (st : Menu) (e : PanEvent) :
  (isDragging (panOpenEnd c st e) = false
   /\ isDragging (didPanEnd c st e) = false
   /\ exists t,
        panOpenEnd c st e
        = match t with
          | open => open_perform c (set_isDragging st false)
          | close => close_perform (set_isDragging st false)
          end)
  /\ (open_running (actions_open c st)
      = Some {| open_startPos := position st;
                open_diff := _width c - position st |}
      /\ close_running (actions_open c st) = close_running st
      /\ isDragging (actions_open c st) = isDragging st)
  /\ (close_running (actions_close st)
      = Some {| close_startPos := position st |}
      /\ open_running (actions_close st) = open_running st
      /\ isDragging (actions_close st) = isDragging st)
  /\ (isDragging (panOpen c st e) = true
      /\ open_running (panOpen c st e) = open_running st
      /\ close_running (panOpen c st e) = close_running st)
  /\ (open_running (didPan c st e) = open_running st
      /\ close_running (didPan c st e) = close_running st).
Proof.
  split; [| split; [| split; [| split]]].
  - split; [apply panOpenEnd_isDragging |].
    split; [apply didPanEnd_isDragging |].
    rewrite panOpenEnd_unfold.
    destruct (_ || _); [exists open | exists close]; reflexivity.
  - repeat split.
  - repeat split.
  - apply panOpen_running.
  - destruct (didPan_running c st e) as (Eo & Ec & _). split; assumption.
Qed.

(** C5 as stated fails: a programmatic [open()] during a drag leaves
    [isDragging] set; [open()] leaves a running [close] animation running;
    a drag that begins leaves a running animation running, and its next
    frame writes [position] during the drag. *)
Lemma writers_not_exclusive :
  let s := sample 100 0 100 in
  isDragging (run menu_300 init [PanOpen s; ActionOpen]) = true
  /\ (let st := run menu_300 (opened menu_300) [ActionClose; ActionOpen] in
      close_running st = Some {| close_startPos := 300 |}
      /\ open_running st <> None)
  /\ (let st := run menu_300 init [ActionOpen; PanOpen s] in
      isDragging st = true /\ open_running st <> None
      /\ position st == 100
      /\ isDragging (step menu_300 st (Frame open (1 # 2))) = true
      /\ position (step menu_300 st (Frame open (1 # 2))) == 150).
Proof.
  vm_compute. repeat split; try reflexivity; discriminate.
Qed.

(** ** Restarting and completing the animations *)

Lemma frames_preserve (c : Component) (fs : list (TaskName * Q)) (st : Menu) :
  open_running (run c st (frames fs)) = open_running st
  /\ close_running (run c st (frames fs)) = close_running st
  /\ calls (run c st (frames fs)) = calls st
  /\ isDragging (run c st (frames fs)) = isDragging st.
Proof.
  revert st. induction fs as [| [t p] fs IH]; intros st; [repeat split |].
  change (run c st (frames ((t, p) :: fs)))
    with (run c (step c st (Frame t p)) (frames fs)).
  destruct (IH (step c st (Frame t p))) as (Eo & Ec & El & Ed).
  rewrite Eo, Ec, El, Ed.
  destruct t; simpl.
  - unfold open_progress.
    destruct (open_running st) eqn:K; simpl; rewrite ?K; repeat split.
  - unfold close_progress.
    destruct (close_running st) eqn:K; simpl; rewrite ?K; repeat split.
Qed.

Lemma run_app (c : Component) (xs ys : list Event) (st : Menu) :
  run c st (xs ++ ys) = run c (run c st xs) ys.
Proof. apply fold_left_app. Qed.

(** C8: once [close()] has been performed at a position [startPos], every
    frame of its animation, at whatever progress [p] and after whatever
    frames came before, writes [startPos * (1 - p)]; when the animation
    completes [onClose] is called. *)
Theorem close_projection
  (c : Component) (st : Menu) (fs : list (TaskName * Q)) (p : Q) :
  let st1 := run c (actions_close st) (frames fs) in
  position (step c st1 (Frame close p)) == position st * (1 - p)
  /\ calls (step c st1 (Resolve close))
     = onClose :: Performed close :: calls st
  /\ close_running (step c st1 (Resolve close)) = None.
Proof.
  intros st1.
  destruct (frames_preserve c fs (actions_close st)) as (_ & R & L & _).
  fold st1 in R, L. simpl in R, L.
  split; [| split]; simpl.
  - unfold close_progress. rewrite R. reflexivity.
  - unfold close_resolve, close_progress. rewrite R. simpl.
    rewrite L. reflexivity.
  - unfold close_resolve. rewrite R. reflexivity.
Qed.

(** ** Further properties of the width *)

(** X1: the menu is never wider than [maxWidth], and with a viewport never
    wider than its share [width / 100] of it. *)
Theorem width_capped (c : Component) :
  _width c <= maxWidth c
  /\ (isFastBoot c = false ->
      _width c <= width c / 100 * getWindowWidth c).
Proof.
  unfold _width. destruct (isFastBoot c).
  - split; [lra | discriminate].
  - generalize (width c / 100 * getWindowWidth c). intros share.
    destruct (Qmin_cases share (maxWidth c)) as [[H E] | [H E]];
      rewrite E; (split; [| intros _]); lra.
Qed.

Lemma width_capped_witness :
  _width (menu "left" 50 300 400) <= 50 / 100 * 400
  /\ _width menu_300 <= 300.
Proof.
  split.
  - apply (proj2 (width_capped (menu "left" 50 300 400))). reflexivity.
  - apply (proj1 (width_capped menu_300)).
Defined.

(** ** Further properties of the position *)

(** X2: with a width that is not negative, in every state the component
    reaches through gestures on both channels, [open()] and [close()] and
    the frames and completion of the [close] animation, [position] is in
    [[0, width]], and so is the start of a running [close] instance. *)
Theorem quiet_run_in_range (c : Component) (evs : list Event) :
  0 <= _width c ->
  forallb quiet evs = true ->
  in_range c (position (run c init evs))
  /\ (forall r, close_running (run c init evs) = Some r ->
        in_range c (close_startPos r)).
Proof.
  intros Hw Hq.
  apply (settled_run c evs init Hw Hq), settled_init, Hw.
Qed.

Lemma quiet_run_in_range_witness :
  in_range menu_300
    (position
       (run menu_300 init
          [PanOpen (sample 500 0 500); PanOpenEnd (sample 20 0 20);
           Frame close (1 # 4); DidPan (sample (- 10) 0 10);
           ActionOpen; Frame close (3 # 4); Resolve close])).
Proof.
  refine (proj1 (quiet_run_in_range menu_300
                   [PanOpen (sample 500 0 500); PanOpenEnd (sample 20 0 20);
                    Frame close (1 # 4); DidPan (sample (- 10) 0 10);
                    ActionOpen; Frame close (3 # 4); Resolve close] _ _)).
  - vm_compute. discriminate.
  - reflexivity.
Defined.

Lemma panOpen_unfold (c : Component) (st : Menu) (e : PanEvent) :
  panOpen c st e
  = set_position (set_isDragging st true)
      (Qmin (Qmax (dx_of c e) 0) (_width c)).
Proof.
  unfold panOpen, dx_of, directionalize, normalized.
  destruct (isLeft c); reflexivity.
Qed.

(** X3: on the open channel, with a width that is not negative, a
    displacement away from the open direction pins the menu at 0, one
    beyond the width pins it at the width, and one in between is the
    position. *)
Theorem panOpen_pins (c : Component) (st : Menu) (e : PanEvent) :
  0 <= _width c ->
  (dx_of c e <= 0 -> position (panOpen c st e) == 0)
  /\ (0 <= dx_of c e <= _width c ->
      position (panOpen c st e) == dx_of c e)
  /\ (_width c <= dx_of c e -> position (panOpen c st e) == _width c).
Proof.
  intros Hw. rewrite panOpen_position.
  destruct (Qmax_cases (dx_of c e) 0) as [[Hd Ed] | [Hd Ed]];
    destruct (Qmin_cases (Qmax (dx_of c e) 0) (_width c))
      as [[Hm Em] | [Hm Em]];
    rewrite Em; repeat split; intros; lra.
Qed.

Lemma panOpen_pins_witness :
  position (panOpen menu_300 init (sample (- 40) 0 0)) == 0
  /\ position (panOpen menu_300 init (sample 120 0 120)) == 120
  /\ position (panOpen menu_300 init (sample 500 0 500)) == 300.
Proof.
  assert (Hw : 0 <= _width menu_300) by (vm_compute; discriminate).
  split; [| split].
  - apply (proj1 (panOpen_pins menu_300 init (sample (- 40) 0 0) Hw)).
    vm_compute. discriminate.
  - rewrite (proj1 (proj2
               (panOpen_pins menu_300 init (sample 120 0 120) Hw))).
    + vm_compute. reflexivity.
    + vm_compute. split; discriminate.
  - rewrite (proj2 (proj2
               (panOpen_pins menu_300 init (sample 500 0 500) Hw))).
    + vm_compute. reflexivity.
    + vm_compute. discriminate.
Defined.

(** X4: on the reposition channel, during a drag and with the pointer
    inside the footprint, the corrected displacement
    [dx - dxCorrection] is the distance from the open end: at 0 or beyond
    the menu is at its width, at [-width] or beyond it is at 0, and in
    between it is at [width + (dx - dxCorrection)]. *)
Theorem didPan_pins (c : Component) (st : Menu) (e : PanEvent) :
  0 <= _width c ->
  isDragging st = true ->
  cx_of c e < _width c ->
  (0 <= dx_of c e - dxCorrection st ->
   position (didPan c st e) == _width c)
  /\ (- _width c <= dx_of c e - dxCorrection st <= 0 ->
      position (didPan c st e)
      == _width c + (dx_of c e - dxCorrection st))
  /\ (dx_of c e - dxCorrection st <= - _width c ->
      position (didPan c st e) == 0).
Proof.
  intros Hw D Hc. rewrite (didPan_dragging_position c st e D Hc).
  unfold limited.
  destruct (gtb (dx_of c e - dxCorrection st) 0) eqn:G;
    [apply gtb_true in G | apply gtb_false in G].
  - repeat split; intros; lra.
  - destruct (ltb (dx_of c e - dxCorrection st) (-1 * _width c)) eqn:L;
      [apply ltb_true in L | apply ltb_false in L];
      repeat split; intros; lra.
Qed.

Lemma didPan_pins_witness :
  let st := didPan menu_300 (opened menu_300) (sample (- 20) 0 280) in
  position (didPan menu_300 st (sample 15 0 295)) == 300
  /\ position (didPan menu_300 st (sample (- 120) 0 180)) == 200
  /\ position (didPan menu_300 st (sample (- 400) 0 (- 100))) == 0.
Proof.
  intros st.
  assert (Hw : 0 <= _width menu_300) by (vm_compute; discriminate).
  assert (D : isDragging st = true) by reflexivity.
  split; [| split].
  - rewrite (proj1 (didPan_pins menu_300 st (sample 15 0 295) Hw D
                      eq_refl)).
    + vm_compute. reflexivity.
    + vm_compute. discriminate.
  - rewrite (proj1 (proj2 (didPan_pins menu_300 st (sample (- 120) 0 180)
                             Hw D eq_refl))).
    + vm_compute. reflexivity.
    + vm_compute. split; discriminate.
  - apply (proj2 (proj2 (didPan_pins menu_300 st
                           (sample (- 400) 0 (- 100)) Hw D eq_refl))).
    vm_compute. discriminate.
Defined.

(** ** What the reposition channel leaves alone *)

(** X5: a reposition sample whose pointer is outside the footprint
    ([cx >= width]) changes nothing, whatever the state: no drag begins,
    and a drag that is going on holds its position. *)
Theorem didPan_outside_footprint (c : Component) (st : Menu) (e : PanEvent) :
  _width c <= cx_of c e -> didPan c st e = st.
Proof.
  intros H. apply ltb_false in H.
  rewrite didPan_unfold. unfold recognized. rewrite H.
  destruct (isOpen c st && negb (isDragging st));
    destruct (isDragging st); reflexivity.
Qed.

Lemma didPan_outside_footprint_witness :
  didPan menu_300 (opened menu_300) (sample (- 80) 0 320)
  = opened menu_300.
Proof.
  apply (didPan_outside_footprint menu_300 (opened menu_300)).
  vm_compute. discriminate.
Defined.

Lemma idle_step (c : Component) (st : Menu) (ev : Event) :
  isDragging st = false -> isOpen c st = false -> reposition ev = true ->
  step c st ev = st.
Proof.
  intros D O R. destruct ev; try discriminate; simpl.
  - rewrite didPan_unfold. unfold recognized. rewrite O, D. simpl.
    rewrite D. reflexivity.
  - unfold didPanEnd. rewrite D. reflexivity.
Qed.

(** X6: while the menu is neither open nor being dragged, the reposition
    channel is inert: whatever samples and gesture ends it delivers, the
    state stays as it is and no animation is performed. *)
Theorem reposition_channel_idle
  (c : Component) (evs : list Event) (st : Menu) :
  isDragging st = false ->
  isOpen c st = false ->
  forallb reposition evs = true ->
  run c st evs = st.
Proof.
  intros D O. induction evs as [| ev evs IH]; intros H; [reflexivity |].
  simpl in H. apply andb_true_iff in H. destruct H as [Hev H].
  simpl. rewrite (idle_step c st ev D O Hev). apply IH, H.
Qed.

Lemma reposition_channel_idle_witness :
  run menu_300 init
    [DidPan (sample (- 30) 0 100); DidPan (sample (- 90) 0 40);
     DidPanEnd (sample (- 200) (- 2) 10)]
  = init.
Proof.
  apply (reposition_channel_idle menu_300); reflexivity.
Defined.

(** ** The correction offset between gestures *)

Lemma cleared_step (c : Component) (st : Menu) (ev : Event) :
  not_panOpenEnd ev = true ->
  (isDragging st = false -> dxCorrection st = 0) ->
  isDragging (step c st ev) = false -> dxCorrection (step c st ev) = 0.
Proof.
  intros N H. destruct ev as [e | e | e | e | | | t p | t];
    try discriminate N; cbn [step].
  - rewrite panOpen_unfold. intros K. discriminate K.
  - rewrite didPan_unfold.
    assert (K : isDragging (recognized c st e) = false ->
                dxCorrection (recognized c st e) = 0).
    { unfold recognized.
      destruct (isOpen c st && negb (isDragging st)); [| exact H].
      destruct (ltb (cx_of c e) (_width c));
        [intros K; discriminate K | exact H]. }
    destruct (isDragging (recognized c st e)) eqn:D.
    + destruct (ltb (cx_of c e) (_width c)); simpl; congruence.
    + intros _. apply K. reflexivity.
  - destruct (isDragging st) eqn:D.
    + rewrite (didPanEnd_unfold c st e D). reflexivity.
    + unfold didPanEnd. rewrite D. intros _. apply H. reflexivity.
  - exact H.
  - exact H.
  - destruct t; simpl.
    + unfold open_progress. destruct (open_running st); exact H.
    + unfold close_progress. destruct (close_running st); exact H.
  - destruct t; simpl.
    + unfold open_resolve, open_progress.
      destruct (open_running st); exact H.
    + unfold close_resolve, close_progress.
      destruct (close_running st); exact H.
Qed.

(** X7: as long as no open-channel drag has ended ([panOpenEnd] is the one
    handler that clears [isDragging] without resetting the offset),
    [dxCorrection] is 0 whenever no drag is going on. *)
Theorem dxCorrection_cleared (c : Component) (evs : list Event) :
  forallb not_panOpenEnd evs = true ->
  isDragging (run c init evs) = false ->
  dxCorrection (run c init evs) = 0.
Proof.
  assert (G : forall st,
             (isDragging st = false -> dxCorrection st = 0) ->
             forallb not_panOpenEnd evs = true ->
             isDragging (run c st evs) = false ->
             dxCorrection (run c st evs) = 0).
  { induction evs as [| ev evs IH]; intros st H F; [exact H |].
    simpl in F. apply andb_true_iff in F. destruct F as [Fev F].
    simpl. apply IH; [| exact F].
    apply cleared_step; assumption. }
  apply G. reflexivity.
Qed.

Lemma dxCorrection_cleared_witness :
  dxCorrection
    (run menu_300 init
       [ActionOpen; Resolve open; DidPan (sample (- 40) 0 200);
        DidPan (sample (- 90) 0 150); DidPanEnd (sample (- 90) 0 150)])
  = 0.
Proof.
  apply (dxCorrection_cleared menu_300); reflexivity.
Defined.

(** ** The hooks *)

Lemma hooks_step (c : Component) (st : Menu) (ev : Event) :
  (count onOpen st + running open st <= count (Performed open) st)%nat
  /\ (count onClose st + running close st
      <= count (Performed close) st)%nat ->
  (count onOpen (step c st ev) + running open (step c st ev)
   <= count (Performed open) (step c st ev))%nat
  /\ (count onClose (step c st ev) + running close (step c st ev)
      <= count (Performed close) (step c st ev))%nat.
Proof.
  intros [Ho Hc].
  assert (P : forall s,
             (count onOpen s + running open s
              <= count (Performed open) s)%nat
             /\ (count onClose s + running close s
                 <= count (Performed close) s)%nat ->
             (count onOpen (open_perform c s)
              + running open (open_perform c s)
              <= count (Performed open) (open_perform c s))%nat
             /\ (count onClose (open_perform c s)
                 + running close (open_perform c s)
                 <= count (Performed close) (open_perform c s))%nat).
  { intros s [A B]. unfold count, running in *. simpl.
    destruct (open_running s); lia. }
  assert (R : forall s,
             (count onOpen s + running open s
              <= count (Performed open) s)%nat
             /\ (count onClose s + running close s
                 <= count (Performed close) s)%nat ->
             (count onOpen (close_perform s)
              + running open (close_perform s)
              <= count (Performed open) (close_perform s))%nat
             /\ (count onClose (close_perform s)
                 + running close (close_perform s)
                 <= count (Performed close) (close_perform s))%nat).
  { intros s [A B]. unfold count, running in *. simpl.
    destruct (close_running s); lia. }
  destruct ev as [e | e | e | e | | | t p | t]; simpl.
  - split; assumption.
  - rewrite panOpenEnd_unfold. destruct (_ || _); [apply P | apply R];
      split; assumption.
  - destruct (didPan_running c st e) as (Eo & Ec & El).
    unfold count, running. rewrite Eo, Ec, El. split; assumption.
  - destruct (isDragging st) eqn:D.
    + rewrite (didPanEnd_unfold c st e D).
      destruct (_ || _);
        [destruct (R (set_isDragging st false)) as [A B]
        | destruct (P (set_isDragging st false)) as [A B]];
        try (split; assumption).
    + unfold didPanEnd. rewrite D. split; assumption.
  - apply P. split; assumption.
  - apply R. split; assumption.
  - destruct t; simpl.
    + unfold open_progress. destruct (open_running st); split; assumption.
    + unfold close_progress. destruct (close_running st); split; assumption.
  - destruct t; simpl.
    + unfold open_resolve, open_progress.
      destruct (open_running st) eqn:K; [| split; assumption].
      unfold count, running in *. simpl. rewrite K in Ho. lia.
    + unfold close_resolve, close_progress.
      destruct (close_running st) eqn:K; [| split; assumption].
      unfold count, running in *. simpl. rewrite K in Hc. lia.
Qed.

(** X8: however gestures, calls and animation events follow one another,
    [onOpen] has been called at most as often as [open] was performed,
    less one while an instance is still running, and [onClose] likewise:
    an instance that was restarted never calls its hook. *)
Theorem hooks_bounded (c : Component) (evs : list Event) :
  (count onOpen (run c init evs) + running open (run c init evs)
   <= count (Performed open) (run c init evs))%nat
  /\ (count onClose (run c init evs) + running close (run c init evs)
      <= count (Performed close) (run c init evs))%nat.
Proof.
  assert (G : forall st,
             (count onOpen st + running open st
              <= count (Performed open) st)%nat
             /\ (count onClose st + running close st
                 <= count (Performed close) st)%nat ->
             (count onOpen (run c st evs) + running open (run c st evs)
              <= count (Performed open) (run c st evs))%nat
             /\ (count onClose (run c st evs)
                 + running close (run c st evs)
                 <= count (Performed close) (run c st evs))%nat).
  { induction evs as [| ev evs IH]; intros st H; [exact H |].
    simpl. apply IH. apply hooks_step, H. }
  apply G. split; apply le_n.
Qed.

(** X9: the hooks are called on the completion of an animation only: no
    pan handler, no call of [open()] or [close()] and no frame calls
    [onOpen] or [onClose]. *)
Theorem hooks_on_completion_only
  (c : Component) (st : Menu) (ev : Event) :
  not_resolve ev = true ->
  count onOpen (step c st ev) = count onOpen st
  /\ count onClose (step c st ev) = count onClose st.
Proof.
  intros N. destruct ev as [e | e | e | e | | | t p | t];
    try discriminate N; simpl.
  - split; reflexivity.
  - rewrite panOpenEnd_unfold. destruct (_ || _); split; reflexivity.
  - destruct (didPan_running c st e) as (_ & _ & El).
    unfold count. rewrite El. split; reflexivity.
  - destruct (isDragging st) eqn:D.
    + rewrite (didPanEnd_unfold c st e D).
      destruct (_ || _); split; reflexivity.
    + unfold didPanEnd. rewrite D. split; reflexivity.
  - split; reflexivity.
  - split; reflexivity.
  - destruct t; simpl.
    + unfold open_progress. destruct (open_running st); split; reflexivity.
    + unfold close_progress.
      destruct (close_running st); split; reflexivity.
Qed.

Lemma hooks_on_completion_only_witness :
  count onOpen (step menu_300 (opened menu_300)
                  (PanOpenEnd (sample 200 0 200))) = 0%nat.
Proof.
  apply (proj1 (hooks_on_completion_only menu_300 (opened menu_300)
                  (PanOpenEnd (sample 200 0 200)) eq_refl)).
Defined.

(** ** The animations *)

(** X10: an [open] animation started at or below the width moves the
    menu towards the open end only, and a [close] animation started at or
    above 0 towards the closed end only: whatever frames came before, a
    larger progress never writes a smaller, respectively larger,
    position. *)
Theorem animation_monotone
  (c : Component) (st : Menu) (fs : list (TaskName * Q)) (p q : Q) :
  p <= q ->
  (position st <= _width c ->
   let st1 := run c (actions_open c st) (frames fs) in
   position (step c st1 (Frame open p))
   <= position (step c st1 (Frame open q)))
  /\ (0 <= position st ->
      let st1 := run c (actions_close st) (frames fs) in
      position (step c st1 (Frame close q))
      <= position (step c st1 (Frame close p))).
Proof.
  intros Hpq. split; intros H st1.
  - destruct (frames_preserve c fs (actions_open c st)) as (R & _).
    fold st1 in R. simpl in R.
    cbn [step]. unfold open_progress. rewrite R. simpl. nra.
  - destruct (frames_preserve c fs (actions_close st)) as (_ & R & _).
    fold st1 in R. simpl in R.
    cbn [step]. unfold close_progress. rewrite R. simpl. nra.
Qed.

Lemma animation_monotone_witness :
  let st1 := run menu_300 (actions_open menu_300 init)
               (frames [(open, 1 # 8)]) in
  position (step menu_300 st1 (Frame open (1 # 4)))
  <= position (step menu_300 st1 (Frame open (3 # 4))).
Proof.
  refine (proj1 (animation_monotone menu_300 init [(open, 1 # 8)]
                   (1 # 4) (3 # 4) _) _).
  - vm_compute. discriminate.
  - vm_compute. discriminate.
Defined.

(** X11: re-opening a menu that is at its width, and closing one that is
    at 0, never moves it: every frame of the animation writes the position
    the menu already has. *)
Theorem animation_at_rest (c : Component) (st : Menu) (p : Q) :
  (position st == _width c ->
   position (open_progress (open_perform c st) p) == _width c)
  /\ (position st == 0 ->
      position (close_progress (close_perform st) p) == 0).
Proof.
  split; intros H; simpl; rewrite H; ring.
Qed.

Lemma animation_at_rest_witness :
  position (open_progress (open_perform menu_300 (opened menu_300)) (1 # 3))
  == 300
  /\ position (close_progress (close_perform init) (1 # 3)) == 0.
Proof.
  split.
  - rewrite (proj1 (animation_at_rest menu_300 (opened menu_300) (1 # 3)));
      vm_compute; reflexivity.
  - apply (proj2 (animation_at_rest menu_300 init (1 # 3))). reflexivity.
Defined.

(** ** Whole gestures *)

Lemma panOpen_samples (c : Component) (es : list PanEvent) (st : Menu) :
  calls (run c st (map PanOpen es)) = calls st.
Proof.
  revert st. induction es as [| e es IH]; intros st; [reflexivity |].
  simpl. rewrite IH, panOpen_unfold. reflexivity.
Qed.

(** X12: an open-channel drag, whatever its samples, that ends with
    [vx > triggerVelocity] or [dx > width / 2], followed by the frames and
    the completion of the animation: no drag is going on, [open] was
    performed and [onOpen] called once each, the position is what the last
    frame writes, [s + (width - s) * 1] for the position [s] the drag
    left, and [isOpen] tells whether that is the width. *)
Theorem swipe_open
  (c : Component) (st : Menu) (es : list PanEvent) (e : PanEvent)
  (fs : list (TaskName * Q)) :
  triggerVelocity c < vx_of c e \/ _width c / 2 < dx_of c e ->
  let s := position (run c st (map PanOpen es)) in
  let st' :=
    run c st
      (map PanOpen es ++ PanOpenEnd e :: frames fs ++ [Resolve open]) in
  isDragging st' = false
  /\ calls st' = onOpen :: Performed open :: calls st
  /\ position st' = s + (_width c - s) * 1
  /\ isOpen c st' = Qeq_bool (s + (_width c - s) * 1) (_width c).
Proof.
  intros H s st'.
  set (st1 := run c st (map PanOpen es)).
  set (st2 := open_perform c (set_isDragging st1 false)).
  set (st3 := run c st2 (frames fs)).
  assert (E : st' = open_resolve st3).
  { unfold st', st3, st2, st1. rewrite run_app.
    change (run c ?s (PanOpenEnd e :: ?l))
      with (run c (panOpenEnd c s e) l).
    rewrite run_app, panOpenEnd_unfold.
    assert (G : gtb (vx_of c e) (triggerVelocity c)
                || gtb (dx_of c e) (_width c / 2) = true).
    { apply orb_true_iff. rewrite !gtb_true. exact H. }
    rewrite G. reflexivity. }
  destruct (frames_preserve c fs st2) as (O & _ & L & D).
  fold st3 in O, L, D. simpl in O, L, D.
  assert (P : position st' = s + (_width c - s) * 1).
  { rewrite E. unfold open_resolve, open_progress. rewrite O.
    reflexivity. }
  assert (G : isDragging st' = false).
  { rewrite E. unfold open_resolve, open_progress. rewrite O. simpl.
    exact D. }
  split; [exact G |]. split; [| split; [exact P |]].
  - rewrite E. unfold open_resolve, open_progress. rewrite O. simpl.
    rewrite L. unfold st1. rewrite panOpen_samples. reflexivity.
  - unfold isOpen. rewrite G, P. reflexivity.
Qed.

Lemma swipe_open_witness :
  calls
    (run menu_300 init
       (map PanOpen [sample 40 0 40; sample 170 0 170]
        ++ PanOpenEnd (sample 170 0 170)
           :: frames [(open, 1 # 2); (open, 9 # 10)] ++ [Resolve open]))
  = [onOpen; Performed open].
Proof.
  refine (proj1 (proj2
    (swipe_open menu_300 init [sample 40 0 40; sample 170 0 170]
       (sample 170 0 170) [(open, 1 # 2); (open, 9 # 10)] _))).
  right. vm_compute. reflexivity.
Defined.

Lemma frames_dxCorrection
  (c : Component) (fs : list (TaskName * Q)) (st : Menu) :
  dxCorrection (run c st (frames fs)) = dxCorrection st.
Proof.
  revert st. induction fs as [| [t p] fs IH]; intros st; [reflexivity |].
  change (run c st (frames ((t, p) :: fs)))
    with (run c (step c st (Frame t p)) (frames fs)).
  rewrite IH. destruct t; simpl.
  - unfold open_progress. destruct (open_running st); reflexivity.
  - unfold close_progress. destruct (close_running st); reflexivity.
Qed.

(** X13: a reposition drag that ends with [vx < -triggerVelocity] or
    [-dx > width / 2], followed by the frames and the completion of the
    animation, leaves the menu closed: the position is 0, no drag is going
    on, the correction offset is reset, [close] was performed and
    [onClose] called once each, and for a positive width [isOpen] does not
    hold. *)
Theorem swipe_close
  (c : Component) (st : Menu) (e : PanEvent) (fs : list (TaskName * Q)) :
  isDragging st = true ->
  vx_of c e < - triggerVelocity c \/ _width c / 2 < - dx_of c e ->
  let st' := run c st (DidPanEnd e :: frames fs ++ [Resolve close]) in
  position st' == 0
  /\ isDragging st' = false
  /\ dxCorrection st' = 0
  /\ calls st' = onClose :: Performed close :: calls st
  /\ (0 < _width c -> isOpen c st' = false).
Proof.
  intros D H st'.
  set (st2 := set_dxCorrection (close_perform (set_isDragging st false)) 0).
  set (st3 := run c st2 (frames fs)).
  assert (G : ltb (vx_of c e) (-1 * triggerVelocity c)
              || gtb (-1 * dx_of c e) (_width c / 2) = true).
  { apply orb_true_iff. rewrite ltb_true, gtb_true.
    destruct H as [H | H]; [left | right]; lra. }
  assert (E : st' = close_resolve st3).
  { unfold st', st3, st2.
    change (run c st (DidPanEnd e :: ?l)) with (run c (didPanEnd c st e) l).
    rewrite run_app, (didPanEnd_unfold c st e D), G. reflexivity. }
  destruct (frames_preserve c fs st2) as (_ & R & L & K).
  fold st3 in R, L, K. simpl in R, L, K.
  assert (X : dxCorrection st3 = 0).
  { unfold st3. rewrite frames_dxCorrection. reflexivity. }
  assert (P : position st' == 0).
  { rewrite E. unfold close_resolve, close_progress. rewrite R. simpl.
    ring. }
  split; [exact P |]. split; [| split; [| split]].
  - rewrite E. unfold close_resolve, close_progress. rewrite R. exact K.
  - rewrite E. unfold close_resolve, close_progress. rewrite R. exact X.
  - rewrite E. unfold close_resolve, close_progress. rewrite R. simpl.
    rewrite L. reflexivity.
  - intros Hw. unfold isOpen.
    destruct (Qeq_bool (position st') (_width c)) eqn:Q;
      [| apply andb_false_r].
    apply Qeq_bool_iff in Q. lra.
Qed.

Lemma swipe_close_witness :
  let st := didPan menu_300 (opened menu_300) (sample (- 10) 0 250) in
  position
    (run menu_300 st
       (DidPanEnd (sample (- 180) 0 80)
        :: frames [(close, 1 # 2)] ++ [Resolve close]))
  == 0.
Proof.
  intros st.
  refine (proj1 (swipe_close menu_300 st (sample (- 180) 0 80)
                   [(close, 1 # 2)] eq_refl _)).
  right. vm_compute. reflexivity.
Defined.

(** ** The two channels and the midpoint *)

(** X14: the two channels decide by mirrored rules: the end of an
    open-channel drag performs [open] exactly when the end of a reposition
    drag with the opposite velocity and displacement performs [close]. *)
Theorem channels_mirror
  (c : Component) (st st' : Menu) (e e' : PanEvent) :
  isDragging st' = true ->
  vx_of c e' == - vx_of c e ->
  dx_of c e' == - dx_of c e ->
  (calls (panOpenEnd c st e) = Performed open :: calls st <->
   calls (didPanEnd c st' e') = Performed close :: calls st').
Proof.
  intros D Hv Hd.
  rewrite panOpenEnd_open, (didPanEnd_close c st' e' D).
  split; (intros [H | H]; [left | right]); lra.
Qed.

Lemma channels_mirror_witness :
  calls (didPanEnd menu_300 (set_isDragging (opened menu_300) true)
           (sample (- 200) 0 100))
  = [Performed close].
Proof.
  apply (proj1 (channels_mirror menu_300 init
                  (set_isDragging (opened menu_300) true)
                  (sample 200 0 200) (sample (- 200) 0 100)
                  eq_refl eq_refl eq_refl)).
  apply panOpenEnd_open. right. vm_compute. reflexivity.
Defined.

(** X15: a gesture that ends exactly at the midpoint without a flick goes
    back where it came from: the open channel performs [close], the
    reposition channel performs [open]. *)
Theorem midpoint_ties (c : Component) (st : Menu) (e : PanEvent) :
  (vx_of c e <= triggerVelocity c -> dx_of c e == _width c / 2 ->
   calls (panOpenEnd c st e) = Performed close :: calls st)
  /\ (isDragging st = true ->
      - triggerVelocity c <= vx_of c e -> - dx_of c e == _width c / 2 ->
      calls (didPanEnd c st e) = Performed open :: calls st).
Proof.
  split.
  - intros Hv Hd. apply panOpenEnd_close. intros [H | H]; lra.
  - intros D Hv Hd. apply didPanEnd_open; [exact D |]. intros [H | H]; lra.
Qed.

Lemma midpoint_ties_witness :
  calls (panOpenEnd menu_300 init (sample 150 (3 # 10) 150))
  = [Performed close]
  /\ calls (didPanEnd menu_300 (set_isDragging (opened menu_300) true)
              (sample (- 150) (- (3 # 10)) 150))
     = [Performed open].
Proof.
  split.
  - apply (proj1 (midpoint_ties menu_300 init (sample 150 (3 # 10) 150)));
      vm_compute; [discriminate | reflexivity].
  - apply (proj2 (midpoint_ties menu_300
                    (set_isDragging (opened menu_300) true)
                    (sample (- 150) (- (3 # 10)) 150)));
      vm_compute; [reflexivity | discriminate | reflexivity].
Defined.

(** ** The ends of the relative position *)

(** X16: for a positive width and a position in [[0, width]],
    [relativePosition] is 1 exactly when the menu is at its width and 0
    exactly when it is at 0; in particular it is 1 whenever [isOpen]
    holds. *)
Theorem relativePosition_ends (c : Component) (st : Menu) :
  0 < _width c ->
  in_range c (position st) ->
  exists q,
    relativePosition c st = Finite q
    /\ (q == 1 <-> position st == _width c)
    /\ (q == 0 <-> position st == 0)
    /\ (isOpen c st = true -> q == 1).
Proof.
  intros Hw [Hl Hu].
  exists (Qabs (position st) / _width c).
  split; [apply divide_finite; lra |].
  rewrite (Qabs_pos _ Hl).
  assert (N : ~ _width c == 0) by lra.
  assert (M : position st / _width c * _width c == position st).
  { apply Qdiv_mult_l with (x := position st) in N.
    unfold Qdiv in *. rewrite <- Qmult_assoc, (Qmult_comm (/ _width c)),
      Qmult_assoc. exact N. }
  assert (A : position st / _width c == 1 <-> position st == _width c).
  { split; intros H.
    - rewrite <- M, H. ring.
    - rewrite H. unfold Qdiv. apply Qmult_inv_r, N. }
  assert (B : position st / _width c == 0 <-> position st == 0).
  { split; intros H.
    - rewrite <- M, H. ring.
    - rewrite H. unfold Qdiv. ring. }
  split; [exact A |]. split; [exact B |].
  intros O. apply A. unfold isOpen in O. apply andb_true_iff in O.
  apply Qeq_bool_iff, O.
Qed.

Lemma relativePosition_ends_witness :
  exists q, relativePosition menu_300 (opened menu_300) = Finite q /\ q == 1.
Proof.
  destruct (relativePosition_ends menu_300 (opened menu_300))
    as (q & E & A & _ & O).
  - vm_compute. reflexivity.
  - vm_compute. split; discriminate.
  - exists q. split; [exact E | apply O; reflexivity].
Defined.

(** ** Class names *)

Lemma left_not_right (c : Component) :
  isLeft c = true -> isRight c = false.
Proof.
  unfold isLeft, isRight. intros H. apply String.eqb_eq in H.
  rewrite H. reflexivity.
Qed.

(** X17: the element always carries [mobile-menu]; it never carries both
    anchor classes, nor both [mobile-menu--open] and
    [mobile-menu--dragging]; and it carries [mobile-menu--open] exactly
    when [isOpen] holds. *)
Theorem classNames_exclusive (c : Component) (shadow : bool) (st : Menu) :
  In "mobile-menu"%string (classNames c shadow st)
  /\ ~ (In "mobile-menu--left"%string (classNames c shadow st)
        /\ In "mobile-menu--right"%string (classNames c shadow st))
  /\ ~ (In "mobile-menu--open"%string (classNames c shadow st)
        /\ In "mobile-menu--dragging"%string (classNames c shadow st))
  /\ (In "mobile-menu--open"%string (classNames c shadow st)
      <-> isOpen c st = true).
Proof.
  assert (O : isOpen c st = true -> isDragging st = false).
  { unfold isOpen. intros H. apply andb_true_iff in H.
    apply negb_true_iff, H. }
  pose proof (left_not_right c) as L.
  unfold classNames.
  destruct (isLeft c); destruct (isRight c); destruct (isDragging st);
    destruct (isOpen c st); destruct (isTransitioning st);
    destruct shadow; simpl;
    try (specialize (O eq_refl); discriminate O);
    try (specialize (L eq_refl); discriminate L);
    (split; [left; reflexivity |]);
    (split; [intros [A B]; intuition discriminate |]);
    (split; [intros [A B]; intuition discriminate |]);
    (split; [intros A; intuition discriminate | intros A]);
    try discriminate A; intuition.
Qed.

Lemma classNames_exclusive_witness :
  In "mobile-menu--open"%string (classNames menu_300 true (opened menu_300))
  /\ ~ In "mobile-menu--dragging"%string
        (classNames menu_300 true (opened menu_300)).
Proof.
  destruct (classNames_exclusive menu_300 true (opened menu_300))
    as (_ & _ & X & O).
  assert (H : In "mobile-menu--open"%string
                (classNames menu_300 true (opened menu_300))).
  { apply O. reflexivity. }
  split; [exact H |]. intros D. apply X. split; assumption.
Defined.

(** ** The anchor *)

Lemma gtb_alike (a a' b b' : Q) :
  a == a' -> b == b' -> gtb a b = gtb a' b'.
Proof.
  intros Ha Hb. destruct (gtb a' b') eqn:K.
  - apply gtb_true. apply gtb_true in K. lra.
  - apply gtb_false. apply gtb_false in K. lra.
Qed.

Lemma ltb_alike (a a' b b' : Q) :
  a == a' -> b == b' -> ltb a b = ltb a' b'.
Proof. intros Ha Hb. apply gtb_alike; assumption. Qed.

Lemma clamp_alike (d d' w w' : Q) :
  d == d' -> w == w' -> Qmin (Qmax d 0) w == Qmin (Qmax d' 0) w'.
Proof.
  intros Hd Hw.
  destruct (Qmax_cases d 0) as [[A1 E1] | [A1 E1]];
    destruct (Qmax_cases d' 0) as [[A2 E2] | [A2 E2]];
    destruct (Qmin_cases (Qmax d 0) w) as [[A3 E3] | [A3 E3]];
    destruct (Qmin_cases (Qmax d' 0) w') as [[A4 E4] | [A4 E4]];
    lra.
Qed.

Lemma limited_alike (c c' : Component) (t t' : Q) :
  _width c == _width c' -> t == t' -> limited c t == limited c' t'.
Proof.
  intros Hw Ht. unfold limited.
  rewrite (gtb_alike t t' 0 0 Ht (Qeq_refl 0)).
  rewrite (ltb_alike t t' (-1 * _width c) (-1 * _width c') Ht)
    by (rewrite Hw; reflexivity).
  destruct (gtb t' 0); [reflexivity |].
  destruct (ltb t' (-1 * _width c')); [rewrite Hw; reflexivity | exact Ht].
Qed.

Lemma alike_refl (st : Menu) : alike st st.
Proof.
  unfold alike, open_alike, close_alike.
  destruct (open_running st); destruct (close_running st);
    repeat split; reflexivity.
Qed.

Lemma alike_set_isDragging (st st' : Menu) (b : bool) :
  alike st st' -> alike (set_isDragging st b) (set_isDragging st' b).
Proof.
  intros (A1 & A2 & A3 & A4 & A5 & A6). unfold alike. simpl. auto 10.
Qed.

Lemma alike_set_position (st st' : Menu) (p p' : Q) :
  alike st st' -> p == p' -> alike (set_position st p) (set_position st' p').
Proof.
  intros (A1 & A2 & A3 & A4 & A5 & A6) H. unfold alike. simpl. auto 10.
Qed.

Lemma alike_set_dxCorrection (st st' : Menu) (d d' : Q) :
  alike st st' -> d == d' ->
  alike (set_dxCorrection st d) (set_dxCorrection st' d').
Proof.
  intros (A1 & A2 & A3 & A4 & A5 & A6) H. unfold alike. simpl. auto 10.
Qed.

Lemma alike_open_perform (c c' : Component) (st st' : Menu) :
  _width c == _width c' -> alike st st' ->
  alike (open_perform c st) (open_perform c' st').
Proof.
  intros Hw (A1 & A2 & A3 & A4 & A5 & A6). unfold alike. simpl.
  rewrite A6, Hw, A2. repeat split; try assumption; reflexivity.
Qed.

Lemma alike_close_perform (st st' : Menu) :
  alike st st' -> alike (close_perform st) (close_perform st').
Proof.
  intros (A1 & A2 & A3 & A4 & A5 & A6). unfold alike. simpl.
  rewrite A6. repeat split; assumption.
Qed.

Lemma alike_open_progress (st st' : Menu) (p p' : Q) :
  alike st st' -> p == p' ->
  alike (open_progress st p) (open_progress st' p').
Proof.
  intros H Hp. unfold open_progress.
  pose proof H as (_ & _ & _ & A4 & _). unfold open_alike in A4.
  destruct (open_running st) as [r |]; destruct (open_running st') as [r' |];
    try contradiction; [| exact H].
  apply alike_set_position; [exact H |].
  destruct A4 as [E1 E2]. rewrite E1, E2, Hp. reflexivity.
Qed.

Lemma alike_close_progress (st st' : Menu) (p p' : Q) :
  alike st st' -> p == p' ->
  alike (close_progress st p) (close_progress st' p').
Proof.
  intros H Hp. unfold close_progress.
  pose proof H as (_ & _ & _ & _ & A5 & _). unfold close_alike in A5.
  destruct (close_running st) as [r |];
    destruct (close_running st') as [r' |];
    try contradiction; [| exact H].
  apply alike_set_position; [exact H |].
  rewrite A5, Hp. reflexivity.
Qed.

Lemma alike_open_resolve (st st' : Menu) :
  alike st st' -> alike (open_resolve st) (open_resolve st').
Proof.
  intros H. unfold open_resolve.
  pose proof (alike_open_progress st st' 1 1 H (Qeq_refl 1)) as K.
  pose proof H as (_ & _ & _ & A4 & _). unfold open_alike in A4.
  destruct (open_running st) as [r |]; destruct (open_running st') as [r' |];
    try contradiction; [| exact H].
  destruct K as (K1 & K2 & K3 & K4 & K5 & K6).
  unfold alike. simpl. rewrite K6. repeat split; assumption.
Qed.

Lemma alike_close_resolve (st st' : Menu) :
  alike st st' -> alike (close_resolve st) (close_resolve st').
Proof.
  intros H. unfold close_resolve.
  pose proof (alike_close_progress st st' 1 1 H (Qeq_refl 1)) as K.
  pose proof H as (_ & _ & _ & _ & A5 & _). unfold close_alike in A5.
  destruct (close_running st) as [r |];
    destruct (close_running st') as [r' |];
    try contradiction; [| exact H].
  destruct K as (K1 & K2 & K3 & K4 & K5 & K6).
  unfold alike. simpl. rewrite K6. repeat split; assumption.
Qed.

Lemma alike_isOpen (c c' : Component) (st st' : Menu) :
  _width c == _width c' -> alike st st' -> isOpen c st = isOpen c' st'.
Proof.
  intros Hw (A1 & A2 & _). unfold isOpen. rewrite A1, A2, Hw. reflexivity.
Qed.

Lemma alike_recognized
  (c c' : Component) (st st' : Menu) (e e' : PanEvent) :
  _width c == _width c' -> sample_alike c c' e e' -> alike st st' ->
  alike (recognized c st e) (recognized c' st' e').
Proof.
  intros Hw (Hd & _ & Hc) H. unfold recognized.
  rewrite (alike_isOpen c c' st st' Hw H).
  rewrite (ltb_alike _ _ _ _ Hc Hw).
  pose proof H as (A1 & _). rewrite A1.
  destruct (isOpen c' st' && negb (isDragging st')); [| exact H].
  destruct (ltb (cx_of c' e') (_width c')); [| exact H].
  apply alike_set_dxCorrection; [apply alike_set_isDragging, H | exact Hd].
Qed.

(** Two components of the same width and trigger velocity, two states that
    are alike and two events they read alike: the next states are alike. *)
Lemma step_alike (c c' : Component) (st st' : Menu) (ev ev' : Event) :
  _width c == _width c' ->
  triggerVelocity c == triggerVelocity c' ->
  event_alike c c' ev ev' ->
  alike st st' ->
  alike (step c st ev) (step c' st' ev').
Proof.
  intros Hw Ht He H.
  destruct ev as [e | e | e | e | | | t p | t];
    destruct ev' as [e' | e' | e' | e' | | | t' p' | t'];
    try contradiction; cbn [step].
  - destruct He as (Hd & _ & _). rewrite !panOpen_unfold.
    apply alike_set_position; [apply alike_set_isDragging, H |].
    apply clamp_alike; assumption.
  - destruct He as (Hd & Hv & _). rewrite !panOpenEnd_unfold.
    rewrite (gtb_alike _ _ _ _ Hv Ht).
    rewrite (gtb_alike (dx_of c e) (dx_of c' e')
               (_width c / 2) (_width c' / 2) Hd)
      by (rewrite Hw; reflexivity).
    destruct (_ || _);
      [apply alike_open_perform | apply alike_close_perform];
      try assumption; apply alike_set_isDragging, H.
  - pose proof (alike_recognized c c' st st' e e' Hw He H) as R.
    destruct He as (Hd & _ & Hc). rewrite !didPan_unfold.
    rewrite (ltb_alike _ _ _ _ Hc Hw).
    pose proof R as (R1 & _ & R3 & _). rewrite R1.
    destruct (isDragging (recognized c' st' e')); [| exact R].
    destruct (ltb (cx_of c' e') (_width c')); [| exact R].
    apply alike_set_position; [exact R |].
    rewrite (limited_alike c c'
               (dx_of c e - dxCorrection (recognized c st e))
               (dx_of c' e' - dxCorrection (recognized c' st' e')) Hw)
      by (rewrite Hd, R3; reflexivity).
    rewrite Hw. reflexivity.
  - destruct He as (Hd & Hv & _).
    pose proof H as (A1 & _).
    destruct (isDragging st') eqn:D.
    + rewrite (didPanEnd_unfold c st e A1), (didPanEnd_unfold c' st' e' D).
      rewrite (ltb_alike (vx_of c e) (vx_of c' e')
                 (-1 * triggerVelocity c) (-1 * triggerVelocity c') Hv)
        by (rewrite Ht; reflexivity).
      rewrite (gtb_alike (-1 * dx_of c e) (-1 * dx_of c' e')
                 (_width c / 2) (_width c' / 2))
        by (try rewrite Hd; try rewrite Hw; reflexivity).
      apply alike_set_dxCorrection; [| reflexivity].
      destruct (_ || _);
        [apply alike_close_perform | apply alike_open_perform];
        try assumption; apply alike_set_isDragging, H.
    + unfold didPanEnd. rewrite A1, D. exact H.
  - apply alike_open_perform; assumption.
  - apply alike_close_perform; assumption.
  - destruct He as [<- Hp].
    destruct t; [apply alike_open_progress | apply alike_close_progress];
      assumption.
  - cbn in He. subst t'.
    destruct t; [apply alike_open_resolve | apply alike_close_resolve];
      assumption.
Qed.

Lemma mirror_alike (c : Component) (e : PanEvent) :
  isLeft c = true -> embed c = false ->
  sample_alike c (flipped c) e (mirror (getWindowWidth c) e).
Proof.
  intros L E.
  unfold sample_alike, dx_of, vx_of, cx_of, directionalize, normalized.
  rewrite L, E. simpl. rewrite E. simpl. repeat split; ring.
Qed.

(** X18: a menu anchored to the right behaves as the mirror image of the
    same menu anchored to the left: fed the mirrored samples (displacement
    and velocity negated, pointer measured from the other edge of the
    window), it goes through states with the same dragging flag, position,
    correction offset, running animations and calls. *)
Theorem anchor_symmetry
  (c : Component) (evs : list Event) (st st' : Menu) :
  isLeft c = true ->
  embed c = false ->
  alike st st' ->
  alike (run c st evs)
    (run (flipped c) st' (map (mirror_event (getWindowWidth c)) evs)).
Proof.
  intros L E. revert st st'.
  induction evs as [| ev evs IH]; intros st st' H; [exact H |].
  simpl. apply IH. apply step_alike.
  - reflexivity.
  - reflexivity.
  - destruct ev; simpl; try (apply mirror_alike; assumption);
      try exact I; try reflexivity.
    split; reflexivity.
  - exact H.
Qed.

Lemma anchor_symmetry_witness :
  let evs := [PanOpen (sample 120 0 120); PanOpenEnd (sample 200 0 200);
              Frame open (1 # 2)] in
  position (run menu_300 init evs)
  == position (run (flipped menu_300) init (map (mirror_event 1000) evs)).
Proof.
  intros evs.
  exact (proj1 (proj2 (anchor_symmetry menu_300 evs init init
                         eq_refl eq_refl (alike_refl init)))).
Defined.

(** ** The beginning of a reposition drag *)

(** X19: on the reposition channel a drag begins exactly when the menu is
    open and the pointer is inside the footprint; the displacement of that
    sample becomes the correction offset, and with a width that is not
    negative the menu stays where it is. *)
Theorem didPan_begins_drag (c : Component) (st : Menu) (e : PanEvent) :
  isDragging st = false ->
  (isDragging (didPan c st e) = true <->
   isOpen c st = true /\ cx_of c e < _width c)
  /\ (isDragging (didPan c st e) = true ->
      dxCorrection (didPan c st e) = dx_of c e
      /\ (0 <= _width c -> position (didPan c st e) == position st)).
Proof.
  intros D. rewrite didPan_unfold. unfold recognized. rewrite D.
  rewrite andb_true_r.
  destruct (isOpen c st) eqn:O.
  - destruct (ltb (cx_of c e) (_width c)) eqn:L; simpl.
    + apply ltb_true in L. split.
      * split; [intros _; split; [reflexivity | exact L] | reflexivity].
      * intros _. split; [reflexivity |]. intros Hw.
        unfold isOpen in O. apply andb_true_iff in O.
        destruct O as [_ O]. apply Qeq_bool_iff in O.
        rewrite (limited_eq c _ 0) by ring.
        rewrite limited_inside by lra. lra.
    + rewrite D. apply ltb_false in L. split.
      * split; [intros K; congruence | intros [_ K]; lra].
      * intros K. congruence.
  - simpl. rewrite D. split.
    + split; [intros K; congruence | intros [K _]; discriminate K].
    + intros K. congruence.
Qed.

Lemma didPan_begins_drag_witness :
  isDragging (didPan menu_300 (opened menu_300) (sample (- 70) 0 200)) = true
  /\ dxCorrection (didPan menu_300 (opened menu_300) (sample (- 70) 0 200))
     = - 70.
Proof.
  destruct (didPan_begins_drag menu_300 (opened menu_300)
              (sample (- 70) 0 200) eq_refl) as [B K].
  assert (G : isDragging
                (didPan menu_300 (opened menu_300) (sample (- 70) 0 200))
              = true).
  { apply B. split; reflexivity. }
  split; [exact G | apply (proj1 (K G))].
Defined.

(** ** Transitions *)

(** X20: [isTransitioning] holds from the moment a task is performed,
    through every frame, until the animation completes; frames and
    completions that arrive while nothing is running change nothing. *)
Theorem transitioning_span
  (c : Component) (st : Menu) (fs : list (TaskName * Q)) :
  isTransitioning (run c st (ActionOpen :: frames fs)) = true
  /\ isTransitioning (run c st (ActionClose :: frames fs)) = true
  /\ (isTransitioning st = false ->
      isTransitioning
        (run c st (ActionOpen :: frames fs ++ [Resolve open])) = false
      /\ isTransitioning
           (run c st (ActionClose :: frames fs ++ [Resolve close])) = false
      /\ forall t p,
           step c st (Frame t p) = st /\ step c st (Resolve t) = st).
Proof.
  destruct (frames_preserve c fs (actions_open c st)) as (Oo & Oc & _).
  destruct (frames_preserve c fs (actions_close st)) as (Co & Cc & _).
  simpl in Oo, Oc, Co, Cc.
  split; [| split].
  - change (run c st (ActionOpen :: frames fs))
      with (run c (actions_open c st) (frames fs)).
    unfold isTransitioning. rewrite Oo. reflexivity.
  - change (run c st (ActionClose :: frames fs))
      with (run c (actions_close st) (frames fs)).
    unfold isTransitioning. rewrite Cc, Co.
    destruct (open_running st); reflexivity.
  - intros T. unfold isTransitioning in T.
    destruct (open_running st) eqn:Ro; [discriminate T |].
    destruct (close_running st) eqn:Rc; [discriminate T |].
    split; [| split].
    + change (run c st (ActionOpen :: frames fs ++ [Resolve open]))
        with (run c (actions_open c st) (frames fs ++ [Resolve open])).
      rewrite run_app.
      change (run c ?s [Resolve open]) with (open_resolve s).
      unfold isTransitioning, open_resolve, open_progress.
      rewrite Oo. simpl. rewrite Oc, ?Rc. reflexivity.
    + change (run c st (ActionClose :: frames fs ++ [Resolve close]))
        with (run c (actions_close st) (frames fs ++ [Resolve close])).
      rewrite run_app.
      change (run c ?s [Resolve close]) with (close_resolve s).
      unfold isTransitioning, close_resolve, close_progress.
      rewrite Cc. simpl. rewrite Co, ?Ro. reflexivity.
    + intros t p. destruct t; simpl.
      * unfold open_progress, open_resolve. rewrite Ro. split; reflexivity.
      * unfold close_progress, close_resolve. rewrite Rc.
        split; reflexivity.
Qed.

Lemma transitioning_span_witness :
  isTransitioning
    (run menu_300 init (ActionOpen :: frames [(open, 1 # 2)]
                        ++ [Resolve open]))
  = false.
Proof.
  apply (proj1 (proj2 (proj2 (transitioning_span menu_300 init
                                [(open, 1 # 2)])) eq_refl)).
Defined.

(** ** The restarted open animation in binary64 *)

Lemma double_frames_preserve (ps : list float) (st : Double.Menu) :
  Double.open_running (Double.frames st ps) = Double.open_running st
  /\ Double.calls (Double.frames st ps) = Double.calls st.
Proof.
  revert st. induction ps as [| p ps IH]; intros st; [split; reflexivity |].
  change (Double.frames st (p :: ps))
    with (Double.frames (Double.open_progress st p) ps).
  destruct (IH (Double.open_progress st p)) as [O L]. rewrite O, L.
  unfold Double.open_progress.
  destruct (Double.open_running st) eqn:K; simpl; rewrite ?K;
    split; reflexivity.
Qed.

(** C7: in the numbers the program computes with, [open()] called again
    before the animation of the first call has completed, then run to
    completion, calls [onOpen] exactly once, and the last frame writes
    [s + (width - s) * 1] for the position [s] at the second call; that
    need not be the width: on a menu of width
    [70 / 100 * 360 = 251.99999999999997], restarted at progress 0.375,
    the menu ends at 252, above its width, [isOpen] is false and
    [relativePosition] exceeds 1. *)
Theorem open_restart_binary64 :
  (forall c st ps1 ps2,
     let st1 := Double.frames (Double.open_perform c st) ps1 in
     let st' :=
       Double.open_resolve
         (Double.frames (Double.open_perform c st1) ps2) in
     Double.calls st'
     = onOpen :: Performed open :: Performed open :: Double.calls st
     /\ Double.position st'
        = (Double.position st1
           + (Double._width c - Double.position st1) * 1)%float)
  /\ (let c := Double.menu_252 in
      let st1 :=
        Double.frames (Double.open_perform c Double.init) [0.375%float] in
      let st' := Double.open_resolve (Double.open_perform c st1) in
      Double.calls st' = [onOpen; Performed open; Performed open]
      /\ (Double._width c <? 252)%float = true
      /\ (Double.position st' =? 252)%float = true
      /\ (Double.position st' =? Double._width c)%float = false
      /\ Double.isOpen c st' = false
      /\ (1 <? Double.relativePosition c st')%float = true).
Proof.
  split.
  - intros c st ps1 ps2 st1 st'.
    destruct (double_frames_preserve ps1 (Double.open_perform c st))
      as [_ L1].
    destruct (double_frames_preserve ps2 (Double.open_perform c st1))
      as [O2 L2].
    fold st1 in L1. simpl in O2, L1, L2.
    unfold st', Double.open_resolve, Double.open_progress.
    rewrite O2. simpl. rewrite L2, L1. split; reflexivity.
  - vm_compute. repeat split.
Qed.
